(** * EmoRecCloud: the segmentation and annotation pipeline of [main.py]

    A shallow embedding of [extract_segment] and [process_audio_file]
    together with the Python primitives they rely on ([str.split],
    [str.strip], [in], slicing, [max], [list.index], [int], [json.dump],
    [os.listdir] / [os.remove]), and the properties of the pipeline
    established on that embedding.

    Conventions.
    - A Python [str] is a list of Unicode code points ([N]).
    - Python floats are binary64 numbers: the specification of IEEE 754
      arithmetic of the standard library ([SpecFloat], precision 53,
      [emax] 1024), every operation rounding to nearest, ties to even.
      Scores and samples, which are only compared or copied, are rationals.
    - The results folder is a finite map from file names to file contents.
    - Code that can raise returns an [outcome]. *)

From Stdlib Require Import QArith Qabs.
From Stdlib Require Import Floats.SpecFloat.
From Stdlib Require Import Strings.String Strings.Ascii.
From Stdlib Require Import Numbers.DecimalString Numbers.DecimalNat.
From stdpp Require Import base option list gmap fin_maps.

Local Open Scope N_scope.

(* ===================================================================== *)
(** * Part I: definitions *)
(* ===================================================================== *)

(** ** Strings *)

Abbreviation str := (list N).

(** Code points of an ASCII literal. *)
Definition lit (s : string) : str :=
  (fun a => N_of_ascii a) <$> list_ascii_of_string s.

(** The opening marker ['<|'] and the closing marker ['|>']. *)
Definition opening : str := [60; 124].
Definition closing : str := [124; 62].

(** [str.isspace] on one code point (CPython's [Py_UNICODE_ISSPACE]). *)
Definition is_space (c : N) : bool :=
  ((9 <=? c) && (c <=? 13)) || ((28 <=? c) && (c <=? 32))
  || (c =? 133) || (c =? 160) || (c =? 5760)
  || ((8192 <=? c) && (c <=? 8202))
  || (c =? 8232) || (c =? 8233) || (c =? 8239) || (c =? 8287)
  || (c =? 12288).

Fixpoint py_lstrip (s : str) : str :=
  match s with
  | c :: s' => if is_space c then py_lstrip s' else s
  | [] => []
  end.

(** [s.strip()]: whitespace removed at both ends. *)
Definition py_strip (s : str) : str :=
  rev (py_lstrip (rev (py_lstrip s))).

(** [s.startswith(sub)]. *)
Fixpoint startswith (sub s : str) : bool :=
  match sub, s with
  | [], _ => true
  | a :: sub', b :: s' => (a =? b) && startswith sub' s'
  | _ :: _, [] => false
  end.

(** [s.endswith(suffix)]. *)
Definition endswith (suffix s : str) : bool :=
  startswith (rev suffix) (rev s).

(** [sub in s]. *)
Fixpoint contains (sub s : str) : bool :=
  startswith sub s
  || match s with
     | [] => false
     | _ :: s' => contains sub s'
     end.

(** [s.partition(sep)] when [sep] occurs: the text before the first
    occurrence and the text after it. *)
Fixpoint partition (sep s : str) : option (str * str) :=
  if startswith sep s then Some ([], drop (length sep) s)
  else match s with
       | [] => None
       | c :: s' =>
           match partition sep s' with
           | Some (a, b) => Some (c :: a, b)
           | None => None
           end
       end.

(** [s.split(sep)] for a non-empty [sep] (CPython scans left to right,
    cutting at each occurrence found and resuming after it).  The fuel is
    the length of the string, which is never exhausted since every cut
    consumes at least one character. *)
Fixpoint split_fuel (fuel : nat) (sep s : str) : list str :=
  match fuel with
  | O => [s]
  | S n =>
      match partition sep s with
      | None => [s]
      | Some (a, b) => a :: split_fuel n sep b
      end
  end.

Definition py_split (sep s : str) : list str :=
  split_fuel (length s) sep s.

(** ** Records of the result list

    A Python [dict] with string keys and values, in insertion order. *)

Abbreviation dict := (list (str * str)).

(** ** Tag parsing (lines 85-104 of [process_audio_file]) *)

(** The loop of lines 86-89. *)
Definition extracted_info (text_content : str) : list str :=
  foldl (fun acc part =>
           if contains closing part
           then acc ++ [py_strip (hd [] (py_split closing part))]
           else acc)
        [] (py_split opening text_content).

(** Lines 91-104: the record appended to [results], if any. *)
Definition tag_record (text_content best_emotion : str) : option dict :=
  let info := extracted_info text_content in
  if (4 <=? length info)%nat then
    let language := nth 0 info [] in
    let emotion := best_emotion in
    let audio_type := nth 2 info [] in
    let text := py_strip (List.last (py_split closing text_content) []) in
    Some [ (lit "Language", language);
           (lit "Emotion", emotion);
           (lit "Audio Type", audio_type);
           (lit "Text", text) ]
  else None.

(** ** Occurrences of a marker *)

(** [s = pre ++ sep ++ rest] at the leftmost position. *)
Definition first_occurrence (sep s pre rest : str) : Prop :=
  s = pre ++ sep ++ rest /\
  forall pre' rest', s = pre' ++ sep ++ rest' -> (length pre <= length pre')%nat.

(** [s = pre ++ sep ++ rest] at the rightmost position. *)
Definition last_occurrence (sep s pre rest : str) : Prop :=
  s = pre ++ sep ++ rest /\
  forall pre' rest', s = pre' ++ sep ++ rest' -> (length pre' <= length pre)%nat.

(** ** Paths

    [os.path.basename] and the root of [os.path.splitext] (posixpath). *)

(** The characters of [s] before the first [c]. *)
Fixpoint upto (c : N) (s : str) : str :=
  match s with
  | [] => []
  | x :: s' => if x =? c then [] else x :: upto c s'
  end.

Definition basename (p : str) : str := rev (upto 47 (rev p)).

(** [os.path.splitext(b)[0]] for a path [b] without ['/']: cut at the last
    dot unless only dots precede it. *)
Definition splitext_root (b : str) : str :=
  let ext := upto 46 (rev b) in
  if (length ext <? length b)%nat then
    let root := take (length b - length ext - 1) b in
    if forallb (N.eqb 46) root then b else root
  else b.

(** [str(n)] for a natural number. *)
Definition dec (n : nat) : str :=
  lit (NilEmpty.string_of_uint (Nat.to_uint n)).

(** ** JSON text written by [json.dump(results, f, ensure_ascii=False, indent=4)] *)

Definition hex_digit (n : N) : N := if n <? 10 then 48 + n else 87 + n.

(** One character of a JSON string ([ensure_ascii=False]: only the quote,
    the backslash and the control characters are escaped). *)
Definition json_escape_char (c : N) : str :=
  if c =? 34 then [92; 34]
  else if c =? 92 then [92; 92]
  else if c =? 8 then [92; 98]
  else if c =? 12 then [92; 102]
  else if c =? 10 then [92; 110]
  else if c =? 13 then [92; 114]
  else if c =? 9 then [92; 116]
  else if c <? 32 then [92; 117; 48; 48; hex_digit (c / 16); hex_digit (c mod 16)]
  else [c].

Definition json_string (s : str) : str :=
  [34] ++ flat_map json_escape_char s ++ [34].

(** [sep.join(l)]. *)
Fixpoint join (sep : str) (l : list str) : str :=
  match l with
  | [] => []
  | [x] => x
  | x :: l' => x ++ sep ++ join sep l'
  end.

(** A newline followed by [k] spaces. *)
Definition newline_indent (k : nat) : str := 10 :: replicate k 32.

Definition json_item (kv : str * str) : str :=
  json_string kv.1 ++ lit ": " ++ json_string kv.2.

Definition json_dict (d : dict) : str :=
  match d with
  | [] => lit "{}"
  | _ => lit "{" ++ newline_indent 8
         ++ join (lit "," ++ newline_indent 8) (json_item <$> d)
         ++ newline_indent 4 ++ lit "}"
  end.

Definition json_dump (results : list dict) : str :=
  match results with
  | [] => lit "[]"
  | _ => lit "[" ++ newline_indent 4
         ++ join (lit "," ++ newline_indent 4) (json_dict <$> results)
         ++ newline_indent 0 ++ lit "]"
  end.

(** The chunks [json.dump] passes to [f.write], in order. *)
Fixpoint separated {A} (sep : str) (f : A -> list str) (l : list A)
    : list str :=
  match l with
  | [] => []
  | [x] => f x
  | x :: l' => f x ++ [sep] ++ separated sep f l'
  end.

Definition json_item_chunks (kv : str * str) : list str :=
  [json_string kv.1; lit ": "; json_string kv.2].

Definition json_dict_chunks (d : dict) : list str :=
  match d with
  | [] => [lit "{}"]
  | _ => [lit "{"; newline_indent 8]
         ++ separated (lit "," ++ newline_indent 8) json_item_chunks d
         ++ [newline_indent 4; lit "}"]
  end.

Definition json_chunks (results : list dict) : list str :=
  match results with
  | [] => [lit "[]"]
  | _ => [lit "[" ++ newline_indent 4]
         ++ separated (lit "," ++ newline_indent 4) json_dict_chunks results
         ++ [newline_indent 0; lit "]"]
  end.

(** A lone surrogate, which UTF-8 cannot encode. *)
Definition is_surrogate (c : N) : bool := (55296 <=? c) && (c <=? 57343).

Definition encodable (chunk : str) : bool :=
  forallb (fun c => negb (is_surrogate c)) chunk.

(** The chunks written before the first one that cannot be encoded. *)
Fixpoint encodable_chunks (chunks : list str) : list str :=
  match chunks with
  | [] => []
  | chunk :: chunks' =>
      if encodable chunk then chunk :: encodable_chunks chunks' else []
  end.

Local Close Scope N_scope.

(** ** Exceptions *)

Inductive exn :=
  | IndexError
  | ValueError
  | OSError
  | OverflowError
  | ZeroDivisionError
  | UnicodeEncodeError.

Inductive outcome (A : Type) :=
  | Ok (a : A)
  | Raise (e : exn).
Arguments Ok {A} a.
Arguments Raise {A} e.

#[global] Instance outcome_ret : MRet outcome := fun A a => Ok a.
#[global] Instance outcome_bind : MBind outcome := fun A B k m =>
  match m with
  | Ok a => k a
  | Raise e => Raise e
  end.
#[global] Instance outcome_fmap : FMap outcome := fun A B f m =>
  match m with
  | Ok a => Ok (f a)
  | Raise e => Raise e
  end.

(** [l[i]] for an index [i >= 0]. *)
Definition py_getitem {A} (l : list A) (i : nat) : outcome A :=
  match l !! i with
  | Some a => Ok a
  | None => Raise IndexError
  end.

(** ** Numbers *)

(** A Python [float]. *)
Abbreviation float := spec_float.

(** The integer [n] as an operand of a division: sign, magnitude, exponent
    zero. *)
Definition Z_operand (n : Z) : float :=
  match n with
  | Z0 => S754_zero false
  | Zpos p => S754_finite false p 0
  | Zneg p => S754_finite true p 0
  end.

(** The quotient of two integers rounded once to binary64. *)
Definition ratio (a b : Z) : float :=
  SFdiv 53 1024 (Z_operand a) (Z_operand b).

(** [a / b] on two [int]s: the correctly rounded quotient;
    [ZeroDivisionError] for [b = 0], [OverflowError] when the quotient is
    too large for a [float]. *)
Definition int_truediv (a b : Z) : outcome float :=
  if (b =? 0)%Z then Raise ZeroDivisionError
  else match ratio a b with
       | S754_infinity _ => Raise OverflowError
       | x => Ok x
       end.

(** The conversion of an [int] operand of a [float] operation:
    [OverflowError] when it is too large. *)
Definition float_of_int (n : Z) : outcome float :=
  match binary_normalize 53 1024 n 0 false with
  | S754_infinity _ => Raise OverflowError
  | x => Ok x
  end.

(** [x * y] on two [float]s. *)
Definition float_mul (x y : float) : float := SFmul 53 1024 x y.

(** The rational a finite [float] stands for (0 for the others). *)
Definition float_value (x : float) : Q :=
  match x with
  | S754_finite s m e => (inject_Z (cond_Zopp s (Z.pos m)) * 2 ^ e)%Q
  | _ => 0%Q
  end.

(** A [float] that is a number: neither a NaN nor an infinity. *)
Definition is_number (x : float) : bool :=
  match x with
  | S754_nan | S754_infinity _ => false
  | _ => true
  end.

(** The integer part of a rational: truncation toward zero. *)
Definition truncate (x : Q) : Z := Z.quot (Qnum x) (Z.pos (Qden x)).

(** [n] is [x] without its fractional part: it lies between zero and [x],
    less than one away from [x]. *)
Definition integer_part (x : Q) (n : Z) : Prop :=
  (0 <= x -> inject_Z n <= x /\ x < inject_Z (n + 1))%Q /\
  (x <= 0 -> x <= inject_Z n /\ inject_Z (n - 1) < x)%Q.

(** [int(x)] on a [float]: the integer part of its value; [ValueError] for
    a NaN, [OverflowError] for an infinity. *)
Definition py_int (x : float) : outcome Z :=
  match x with
  | S754_nan => Raise ValueError
  | S754_infinity _ => Raise OverflowError
  | _ => Ok (truncate (float_value x))
  end.

(** The nearest integer of a rational, ties to the even one.  Not used by
    the source; it is the rounding the specification names. *)
Definition py_round (x : Q) : Z :=
  let n := Qnum x in
  let d := Z.pos (Qden x) in
  let fl := (n / d)%Z in
  match (2 * (n mod d) ?= d)%Z with
  | Lt => fl
  | Gt => (fl + 1)%Z
  | Eq => if Z.even fl then fl else (fl + 1)%Z
  end.

Arguments ratio : simpl never.
Arguments int_truediv : simpl never.
Arguments float_of_int : simpl never.
Arguments float_mul : simpl never.
Arguments float_value : simpl never.

(** ** Slicing *)

(** Normalisation of one bound of [l[start:stop]] against [len(l)]. *)
Definition slice_index (len i : Z) : Z :=
  if (i <? 0)%Z then Z.max 0 (i + len) else Z.min i len.

(** [l[start:stop]]. *)
Definition py_slice {A} (l : list A) (start stop : Z) : list A :=
  let len := Z.of_nat (length l) in
  let lo := slice_index len start in
  let hi := slice_index len stop in
  take (Z.to_nat (hi - lo)) (drop (Z.to_nat lo) l).

(** The bound the specification asks for: forced into [0, len]. *)
Definition clamp (len i : Z) : Z := Z.max 0 (Z.min i len).

(** The slice between the clamped bounds. *)
Definition clamped_slice {A} (l : list A) (start stop : Z) : list A :=
  let len := Z.of_nat (length l) in
  take (Z.to_nat (clamp len stop - clamp len start))
       (drop (Z.to_nat (clamp len start)) l).

(** ** [extract_segment] (lines 45-49) *)

(** [int(time * sample_rate)] for a [float] time and an [int] rate. *)
Definition sample_index (time : float) (sample_rate : Z) : outcome Z :=
  rate ← float_of_int sample_rate;
  py_int (float_mul time rate).

Definition extract_segment {A} (audio : list A) (start_time end_time : float)
    (sample_rate : Z) : outcome (list A) :=
  start_sample ← sample_index start_time sample_rate;
  end_sample ← sample_index end_time sample_rate;
  let segment := py_slice audio start_sample end_sample in
  Ok segment.

(** [round(x)] on a [float], which the specification names in place of
    [int(x)]. *)
Definition py_round_float (x : float) : outcome Z :=
  match x with
  | S754_nan => Raise ValueError
  | S754_infinity _ => Raise OverflowError
  | _ => Ok (py_round (float_value x))
  end.

(** The extractor of the specification, which rounds to nearest. *)
Definition extract_segment_rounding {A} (audio : list A)
    (start_time end_time : float) (sample_rate : Z) : outcome (list A) :=
  rate ← float_of_int sample_rate;
  start_sample ← py_round_float (float_mul start_time rate);
  end_sample ← py_round_float (float_mul end_time rate);
  Ok (py_slice audio start_sample end_sample).

(** ** Emotion scores *)

(** One entry of the list an emotion pipeline returns. *)
Record emotion_output := {
  labels : list str;
  scores : list Q;
}.

(** [max(l)]: the first maximal element; [ValueError] on an empty list. *)
Definition py_max (l : list Q) : outcome Q :=
  match l with
  | [] => Raise ValueError
  | x :: l' => Ok (foldl (fun m y => if Qle_bool y m then m else y) x l')
  end.

(** [l.index(x)]: the first position holding a value equal to [x]. *)
Fixpoint py_index (x : Q) (l : list Q) : outcome nat :=
  match l with
  | [] => Raise ValueError
  | y :: l' => if Qeq_bool y x then Ok 0 else S <$> py_index x l'
  end.

(** Lines 56-57, and again 82-83. *)
Definition best_label (rec_result : list emotion_output) : outcome str :=
  r0 ← py_getitem rec_result 0;
  m ← py_max (scores r0);
  best_label_index ← py_index m (scores r0);
  py_getitem (labels r0) best_label_index.

(** [i] is the first position of the largest score. *)
Definition first_argmax (l : list Q) (i : nat) : Prop :=
  exists m, l !! i = Some m /\
    (forall j x, l !! j = Some x -> (x <= m)%Q) /\
    (forall j x, j < i -> l !! j = Some x -> (x < m)%Q).

(** The contract of an emotion pipeline: at least one entry, at least one
    score, and a label for every score. *)
Definition emotion_well_formed (rec_result : list emotion_output) : Prop :=
  exists r0 rest, rec_result = r0 :: rest /\
    scores r0 <> [] /\ length (scores r0) <= length (labels r0).

(** ** Files and the results folder *)

Inductive file :=
  | AudioFile (samples : list Q)
  | TextFile (content : str).

(** [RESULTS_FOLDER], keyed by file name. *)
Abbreviation folder := (gmap str file).

Definition output_results_json : str := lit "output_results.json".
Definition dot_wav : str := lit ".wav".

(** ** External collaborators

    The models loaded at start-up, as functions of the file they are given,
    and the [.2f] formatter of the f-string.  Their internals are outside
    the repository; only the shape of what they return is fixed. *)

(** What [asr_pipeline] returns: a list of dicts, each with an optional
    ["text"] entry, or some value that is not a list. *)
Inductive asr_value :=
  | AsrNotList
  | AsrList (items : list (option str)).

(** One entry of [get_speech_ts]: [{'start': _, 'end': _}], in samples. *)
Record vad_segment := {
  seg_start : Z;
  seg_end : Z;
}.

Record collaborators := {
  emotion_pipeline : file -> list emotion_output;
  asr_pipeline : file -> asr_value;
  read_audio : file -> list Q;
  get_speech_ts : list Q -> list vad_segment;
  format_2f : float -> str;
}.

(** ** Computations on the results folder that may raise *)

Definition io (A : Type) : Type := folder -> outcome A * folder.

Definition io_ret {A} (a : A) : io A := fun dir => (Ok a, dir).

Definition io_bind {A B} (m : io A) (k : A -> io B) : io B :=
  fun dir =>
    match m dir with
    | (Ok a, dir') => k a dir'
    | (Raise e, dir') => (Raise e, dir')
    end.

Definition lift {A} (o : outcome A) : io A := fun dir => (o, dir).

Notation "x <- m ;; k" := (io_bind m (fun x => k))
  (at level 100, m at next level, right associativity).

(** [save_audio(path, audio, 16000)]. *)
Definition save_audio (path : str) (audio : list Q) : io unit :=
  fun dir => (Ok (), <[path := AudioFile audio]> dir).

(** A pipeline opening the file at [path]. *)
Definition read_file (path : str) : io file :=
  fun dir =>
    match dir !! path with
    | Some f => (Ok f, dir)
    | None => (Raise OSError, dir)
    end.

(** [os.listdir(RESULTS_FOLDER)], in the arbitrary order of the listing. *)
Definition listdir (dir : folder) : list str := (map_to_list dir).*1.

(** ** The segment loop (lines 68-104) *)

(** Lines 72-73: the name of the segment file inside [RESULTS_FOLDER]. *)
Definition segment_name (M : collaborators) (audio_file : str) (i : nat)
    (start_time end_time : float) : str :=
  splitext_root (basename audio_file) ++ lit "_segment_" ++ dec (i + 1)
  ++ lit "_" ++ format_2f M start_time ++ lit "-" ++ format_2f M end_time
  ++ lit ".wav".

(** Lines 69-70. *)
Definition segment_times (segment : vad_segment) : outcome (float * float) :=
  start_time ← int_truediv (seg_start segment) 16000;
  end_time ← int_truediv (seg_end segment) 16000;
  Ok (start_time, end_time).

(** Lines 69-71. *)
Definition segment_audio (audio : list Q) (segment : vad_segment)
    : outcome (list Q) :=
  '(start_time, end_time) ← segment_times segment;
  extract_segment audio start_time end_time 16000.

(** Lines 69-70 followed by lines 46-47: the sample index the extractor
    computes for a sample index [n] of the detector. *)
Definition cut_index (n : Z) : outcome Z :=
  time ← int_truediv n 16000;
  sample_index time 16000.

(** Lines 76-104 on the saved segment file: the record appended to
    [results], if any. *)
Definition annotate_segment (M : collaborators) (segment_file : file)
    : outcome (option dict) :=
  match asr_pipeline M segment_file with
  | AsrList (result :: _) =>
      let text_content := default [] result in
      best_emotion ← best_label (emotion_pipeline M segment_file);
      Ok (tag_record text_content best_emotion)
  | _ => Ok None
  end.

Fixpoint segments_loop (M : collaborators) (audio_file : str) (audio : list Q)
    (i : nat) (vad_segments : list vad_segment) (results : list dict)
    : io (list dict) :=
  match vad_segments with
  | [] => io_ret results
  | segment :: rest =>
      start_time <- lift (int_truediv (seg_start segment) 16000) ;;
      end_time <- lift (int_truediv (seg_end segment) 16000) ;;
      samples <- lift (extract_segment audio start_time end_time 16000) ;;
      let segment_path := segment_name M audio_file i start_time end_time in
      _ <- save_audio segment_path samples ;;
      segment_file <- read_file segment_path ;;
      appended <- lift (annotate_segment M segment_file) ;;
      segments_loop M audio_file audio (S i) rest
        (results ++ option_list appended)
  end.

(** ** [process_audio_file] (lines 51-113) *)

(** Lines 52-104: the result list.  [src] is the content of [audio_file]. *)
Definition build_results (M : collaborators) (audio_file : str) (src : file)
    : io (list dict) :=
  best_overall_emotion <- lift (best_label (emotion_pipeline M src)) ;;
  let results := [] ++ [[(lit "Overall Emotion", best_overall_emotion)]] in
  let audio := read_audio M src in
  let vad_segments := get_speech_ts M audio in
  segments_loop M audio_file audio 0 vad_segments results.

(** How the storage behaves when the artifact is written: the file
    cannot be opened, or it takes only [k] characters before failing, or
    it takes whatever is written. *)
Inductive storage :=
  | CannotOpen
  | TakesOnly (k : nat)
  | TakesAll.

(** Lines 106-108.  [open(..., 'w')] raises and changes nothing, or it
    empties the file.  [json.dump] then hands its chunks to the file one by
    one; a chunk with a lone surrogate cannot be encoded as UTF-8 and
    raises [UnicodeEncodeError], and leaving the [with] block writes out
    the chunks before it.  When the storage takes fewer characters than
    are written out, those it took stay in the file and [OSError] is what
    the caller sees. *)
Definition write_results (st : storage) (results : list dict) : io unit :=
  fun dir =>
    let chunks := json_chunks results in
    let written := concat (encodable_chunks chunks) in
    let dumped :=
      (if forallb encodable chunks then Ok () else Raise UnicodeEncodeError,
       <[output_results_json := TextFile written]> dir) in
    match st with
    | CannotOpen => (Raise OSError, dir)
    | TakesOnly k =>
        if length written <=? k then dumped
        else (Raise OSError,
              <[output_results_json := TextFile (take k written)]> dir)
    | TakesAll => dumped
    end.

(** Lines 111-113. *)
Definition cleanup_step (dir : folder) (file : str) : folder :=
  if endswith dot_wav file && negb (bool_decide (file = output_results_json))
  then delete file dir
  else dir.

Definition cleanup (dir : folder) : folder :=
  foldl cleanup_step dir (listdir dir).

Definition remove_segment_files : io unit :=
  fun dir => (Ok (), cleanup dir).

(** What a Python call evaluates to. *)
Inductive pyval :=
  | PyNone
  | PyList (records : list dict).

Definition process_audio_file (M : collaborators) (st : storage)
    (audio_file : str) (src : file) : io pyval :=
  results <- build_results M audio_file src ;;
  _ <- write_results st results ;;
  _ <- remove_segment_files ;;
  io_ret PyNone.

(** Lines 69-104 for one detected range, seen from the result list: the
    record the range contributes, if any. *)
Definition segment_annotation (M : collaborators) (audio : list Q)
    (segment : vad_segment) : outcome (option dict) :=
  samples ← segment_audio audio segment;
  annotate_segment M (AudioFile samples).

(** The specification's view of the durable artifact after a run started
    on the folder [before]: either untouched, or the complete serialisation
    of the result list. *)
Definition artifact_atomic (before after : gmap str file)
    (results : list dict) : Prop :=
  after !! output_results_json = before !! output_results_json \/
  after !! output_results_json = Some (TextFile (json_dump results)).

(** ** A concrete scenario

    A ten-sample recording in which the detector finds two ranges; the
    recogniser transcribes the first and returns nothing for the second. *)

(** [f"{x:.2f}"]: the value of the [float] rounded to two decimals, ties
    to even, behind its sign. *)
Definition demo_format_2f (x : float) : str :=
  match x with
  | S754_nan => lit "nan"
  | S754_infinity s => if s then lit "-inf" else lit "inf"
  | S754_zero s | S754_finite s _ _ =>
      let n := Z.to_nat (py_round (Qabs (float_value x) * 100)) in
      (if s then lit "-" else [])
      ++ dec (n / 100) ++ lit "." ++ dec (n mod 100 / 10) ++ dec (n mod 10)
  end.

Definition demo_labels : list str := [lit "angry"; lit "happy"; lit "sad"].

Definition demo : collaborators := {|
  emotion_pipeline f :=
    match f with
    | AudioFile (x :: _) =>
        if Qeq_bool x 1
        then [ {| labels := demo_labels; scores := [0.1; 0.7; 0.7]%Q |} ]
        else [ {| labels := demo_labels; scores := [0.5; 0.2; 0.3]%Q |} ]
    | _ => [ {| labels := [lit "neutral"]; scores := [1%Q] |} ]
    end;
  asr_pipeline f :=
    match f with
    | AudioFile (x :: _) =>
        if Qeq_bool x 1
        then AsrList [Some (lit "<|EN|><|SAD|><|Speech|><|withitn|> hello ")]
        else AsrList []
    | _ => AsrNotList
    end;
  read_audio f := match f with AudioFile a => a | TextFile _ => [] end;
  get_speech_ts _ :=
    [ {| seg_start := 1; seg_end := 3 |}; {| seg_start := 5; seg_end := 7 |} ];
  format_2f := demo_format_2f;
|}.

Definition demo_path : str := lit "./uploads/talk.mp3".

Definition demo_src : file := AudioFile [0; 1; 2; 3; 4; 5; 6; 7; 8; 9]%Q.

(** A recording of 1010 samples, sample [n] holding the value [n]. *)
Definition demo_recording : list Q :=
  map (fun n => inject_Z (Z.of_nat n)) (seq 0 1010).

(** The results folder left by an earlier run. *)
Definition demo_folder : gmap str file :=
  {[ output_results_json :=
       TextFile (json_dump [[(lit "Overall Emotion", lit "neutral")]]) ]}.

Definition demo_results : list dict :=
  [ [ (lit "Overall Emotion", lit "angry") ];
    [ (lit "Language", lit "EN");
      (lit "Emotion", lit "happy");
      (lit "Audio Type", lit "Speech");
      (lit "Text", lit "hello") ] ].

(** Lines 69-73: the name of the file written for the range at position
    [i] of the detector's list. *)
Definition segment_file_name (M : collaborators) (audio_file : str) (i : nat)
    (segment : vad_segment) : outcome str :=
  '(start_time, end_time) ← segment_times segment;
  Ok (segment_name M audio_file i start_time end_time).

(** A scenario in which the emotion pipeline returns no scores for the
    second range. *)
Definition demo_faulty : collaborators := {|
  emotion_pipeline f :=
    match f with
    | AudioFile (x :: _) =>
        if Qeq_bool x 5
        then [ {| labels := demo_labels; scores := [] |} ]
        else emotion_pipeline demo f
    | _ => emotion_pipeline demo f
    end;
  asr_pipeline f :=
    match f with
    | AudioFile (_ :: _) =>
        AsrList [Some (lit "<|EN|><|SAD|><|Speech|><|withitn|> hello ")]
    | _ => AsrNotList
    end;
  read_audio := read_audio demo;
  get_speech_ts := get_speech_ts demo;
  format_2f := demo_format_2f;
|}.


(** A result list whose label holds a lone surrogate. *)
Definition demo_unencodable : list dict :=
  [ [ (lit "Overall Emotion", [104; 55296; 105]%N) ] ].

(** A value without white space at either end, as [strip] leaves it. *)
Definition stripped (x : str) : Prop :=
  (forall c, head x = Some c -> is_space c = false) /\
  (forall c, last x = Some c -> is_space c = false).

(** A scenario in which the recogniser returns an entry without ["text"]. *)
Definition demo_untagged : collaborators := {|
  emotion_pipeline := emotion_pipeline demo;
  asr_pipeline _ := AsrList [None];
  read_audio := read_audio demo;
  get_speech_ts := get_speech_ts demo;
  format_2f := demo_format_2f;
|}.

(** ** The request handler [recognize_file] (lines 142-154) *)

Definition UPLOAD_FOLDER : str := lit "./uploads".

(** [os.path.join(a, b)] (posixpath): an absolute [b] replaces [a]. *)
Definition os_path_join (a b : str) : str :=
  if startswith (lit "/") b then b
  else if bool_decide (a = []) || endswith (lit "/") a then a ++ b
  else a ++ lit "/" ++ b.

(** What a handler returns: [jsonify(body), status]. *)
Record response := {
  body : dict;
  status : nat;
}.

(** [filename] is the ["filename"] entry of the posted JSON object ([None]
    when it is absent or null).  [uploads path] is [None] when
    [os.path.exists(path)] is false, and otherwise what the pipelines read
    at that path.  An exception of the pipeline is not caught by the
    handler. *)
Definition recognize_file (M : collaborators) (st : storage)
    (uploads : str -> option file) (filename : option str) : io response :=
  let not_filename :=
    match filename with
    | None => true
    | Some s => bool_decide (s = [])
    end in
  if not_filename then
    io_ret {| body := [(lit "error", lit "Filename not provided")];
              status := 400 |}
  else
    let filepath := os_path_join UPLOAD_FOLDER (default [] filename) in
    match uploads filepath with
    | None =>
        io_ret {| body := [(lit "error", lit "File not found")];
                  status := 404 |}
    | Some src =>
        _ <- process_audio_file M st filepath src ;;
        io_ret {| body := [(lit "message", lit "Recognition completed")];
                  status := 200 |}
    end.

(** The upload folder of the scenario. *)
Definition demo_uploads (path : str) : option file :=
  if bool_decide (path = demo_path) then Some demo_src else None.

(** * Part II: properties *)
(* ===================================================================== *)

(** ** Strings *)

Lemma startswith_spec sub s :
  startswith sub s = true <-> exists k, s = sub ++ k.
Proof.
  revert s. induction sub as [|a sub IH]; intros s; simpl.
  - split; eauto.
  - destruct s as [|b s].
    + split; [discriminate | intros [k Hk]; discriminate].
    + rewrite andb_true_iff, N.eqb_eq, IH. split.
      * intros [-> [k ->]]. eauto.
      * intros [k Hk]. injection Hk as -> ->. eauto.
Qed.

Lemma startswith_drop sub s :
  startswith sub s = true -> s = sub ++ drop (length sub) s.
Proof.
  intros H. apply startswith_spec in H as [k ->].
  by rewrite drop_app_length.
Qed.

Lemma contains_spec sub s :
  contains sub s = true <-> exists a b, s = a ++ sub ++ b.
Proof.
  induction s as [|c s IH]; simpl.
  - rewrite orb_false_r, startswith_spec. split.
    + intros [k ->]. by exists [], k.
    + intros (a & b & H). destruct a; [by eauto|discriminate].
  - rewrite orb_true_iff, startswith_spec, IH. split.
    + intros [[k ->]|(a & b & ->)]; [by exists [], k|by exists (c :: a), b].
    + intros (a & b & H). destruct a as [|c' a]; simpl in H.
      * left. eauto.
      * right. injection H as -> ->. eauto.
Qed.

Lemma partition_Some sep s a b :
  partition sep s = Some (a, b) -> first_occurrence sep s a b.
Proof.
  revert a b. induction s as [|c s IH]; intros a b; simpl.
  - destruct (startswith sep []) eqn:E; [|discriminate].
    intros [= <- <-]. split.
    + simpl. by apply startswith_drop in E.
    + intros; simpl; lia.
  - destruct (startswith sep (c :: s)) eqn:E.
    + intros [= <- <-]. split.
      * by apply startswith_drop in E.
      * intros; simpl; lia.
    + destruct (partition sep s) as [[a0 b0]|]; [|discriminate].
      intros [= <- <-]. destruct (IH _ _ eq_refl) as [-> Hmin]. split; [done|].
      intros [|c' pre'] rest' H; simpl in H.
      * assert (startswith sep (c :: a0 ++ sep ++ b0) = true) as E'
          by (apply startswith_spec; eauto).
        congruence.
      * injection H as _ H. simpl. specialize (Hmin _ _ H). lia.
Qed.

Lemma partition_None sep s :
  partition sep s = None <-> contains sep s = false.
Proof.
  induction s as [|c s IH]; simpl.
  - destruct (startswith sep []); simpl; split; congruence.
  - destruct (startswith sep (c :: s)); simpl; [split; congruence|].
    rewrite <- IH. destruct (partition sep s) as [[? ?]|]; split; congruence.
Qed.

Lemma partition_shorter sep s a b :
  sep <> [] -> partition sep s = Some (a, b) -> (length b < length s)%nat.
Proof.
  intros Hsep H. apply partition_Some in H as [-> _].
  rewrite !length_app. destruct sep; [done|simpl; lia].
Qed.

Lemma split_fuel_enough sep :
  sep <> [] ->
  forall n m s, (length s <= n)%nat -> (length s <= m)%nat ->
    split_fuel n sep s = split_fuel m sep s.
Proof.
  intros Hsep. induction n as [|n IH]; intros m s Hn Hm.
  - destruct s; [|simpl in Hn; lia].
    destruct m; simpl; [done|].
    destruct sep; [done|]. done.
  - destruct m as [|m].
    + destruct s; [|simpl in Hm; lia]. simpl.
      destruct sep; [done|]. done.
    + simpl. destruct (partition sep s) as [[a b]|] eqn:E; [|done].
      pose proof (partition_shorter _ _ _ _ Hsep E).
      f_equal. apply IH; lia.
Qed.

(** The recursion equation of [str.split]. *)
Lemma py_split_unfold sep s :
  sep <> [] ->
  py_split sep s =
    match partition sep s with
    | None => [s]
    | Some (a, b) => a :: py_split sep b
    end.
Proof.
  intros Hsep. unfold py_split.
  destruct (length s) as [|n] eqn:Hn.
  - destruct s; [|discriminate]. simpl.
    destruct sep; [done|]. done.
  - simpl. destruct (partition sep s) as [[a b]|] eqn:E; [|done].
    pose proof (partition_shorter _ _ _ _ Hsep E).
    f_equal. apply split_fuel_enough; [done|lia|lia].
Qed.

Lemma py_split_nonempty sep s : py_split sep s <> [].
Proof.
  unfold py_split. destruct (length s); simpl; [done|].
  by destruct (partition sep s) as [[? ?]|].
Qed.

(** Induction along the cuts made by [str.split]. *)
Lemma py_split_ind sep (P : str -> list str -> Prop) :
  sep <> [] ->
  (forall s, partition sep s = None -> P s [s]) ->
  (forall s a b, partition sep s = Some (a, b) ->
     P b (py_split sep b) -> P s (a :: py_split sep b)) ->
  forall s, P s (py_split sep s).
Proof.
  intros Hsep Hnone Hsome s.
  remember (length s) as n eqn:Hn. revert s Hn.
  induction n as [n IH] using lt_wf_ind. intros s ->.
  rewrite py_split_unfold by done.
  destruct (partition sep s) as [[a b]|] eqn:E.
  - apply Hsome; [done|].
    apply (IH (length b)); [|done]. by eapply partition_shorter.
  - by apply Hnone.
Qed.

Lemma first_occurrence_clean sep s a b :
  sep <> [] -> first_occurrence sep s a b -> contains sep a = false.
Proof.
  intros Hsep [-> Hmin]. destruct (contains sep a) eqn:E; [|done].
  apply contains_spec in E as (x & y & ->).
  specialize (Hmin x (y ++ sep ++ b)).
  rewrite <- !app_assoc in Hmin. specialize (Hmin eq_refl).
  rewrite !length_app in Hmin.
  destruct sep; [done|simpl in Hmin; lia].
Qed.

(** The parts returned by [str.split] are separated by the marker and none
    of them contains it. *)
Lemma py_split_join sep s :
  sep <> [] ->
  join sep (py_split sep s) = s /\
  Forall (fun part => contains sep part = false) (py_split sep s).
Proof.
  intros Hsep. apply (py_split_ind sep (fun s l => join sep l = s /\
    Forall (fun part => contains sep part = false) l)); [done|..].
  - intros s' E. split; [done|]. constructor; [|constructor].
    by apply partition_None.
  - intros s' a b E [IH1 IH2]. apply partition_Some in E as HE.
    destruct HE as [-> Hmin]. split.
    + simpl. destruct (py_split sep b) eqn:Eb; [by apply py_split_nonempty in Eb|].
      by rewrite IH1.
    + constructor; [|done]. eapply first_occurrence_clean; [done|]. by split.
Qed.

(** [part.split(sep)[0]] is the text before the first occurrence. *)
Lemma py_split_head sep part :
  sep <> [] -> contains sep part = true ->
  exists pre rest, first_occurrence sep part pre rest /\
    hd [] (py_split sep part) = pre.
Proof.
  intros Hsep Hin. rewrite py_split_unfold by done.
  destruct (partition sep part) as [[a b]|] eqn:E.
  - exists a, b. split; [by apply partition_Some|done].
  - apply partition_None in E. congruence.
Qed.

(** [s.split(sep)[-1]] follows an occurrence and holds no further one. *)
Lemma py_split_last sep s :
  sep <> [] ->
  contains sep (List.last (py_split sep s) []) = false /\
  (contains sep s = true ->
   exists pre, s = pre ++ sep ++ List.last (py_split sep s) []).
Proof.
  intros Hsep. apply (py_split_ind sep (fun s l =>
    contains sep (List.last l []) = false /\
    (contains sep s = true -> exists pre, s = pre ++ sep ++ List.last l [])));
    [done|..].
  - intros s' E. apply partition_None in E. simpl. split; [done|congruence].
  - intros s' a b E [IH1 IH2].
    assert (List.last (a :: py_split sep b) [] = List.last (py_split sep b) [])
      as ->.
    { destruct (py_split sep b) eqn:Eb; [by apply py_split_nonempty in Eb|done]. }
    split; [done|]. intros _. apply partition_Some in E as [-> _].
    destruct (contains sep b) eqn:Eb.
    + destruct (IH2 eq_refl) as [pre Hpre]. exists (a ++ sep ++ pre).
      rewrite <- !app_assoc. by rewrite <- Hpre.
    + apply partition_None in Eb.
      rewrite (py_split_unfold sep b), Eb by done. by exists a.
Qed.

(** For a marker of two distinct characters, such as ['|>'], occurrences
    cannot overlap: the text after an occurrence that holds no further one
    is the text after the last occurrence. *)
Lemma last_occurrence_two (x y : N) s pre tail :
  x <> y ->
  s = pre ++ [x; y] ++ tail ->
  contains [x; y] tail = false ->
  last_occurrence [x; y] s pre tail.
Proof.
  intros Hxy -> Hclean. split; [done|].
  intros pre'. revert pre. induction pre' as [|c pre' IH]; intros pre rest' H.
  - simpl; lia.
  - destruct pre as [|c0 pre]; simpl in H.
    + exfalso. injection H as Hc H.
      destruct pre' as [|c1 pre']; simpl in H.
      * injection H as Hy _. congruence.
      * injection H as _ H.
        assert (contains [x; y] tail = true) as E
          by (apply contains_spec; exists pre', rest'; exact H).
        congruence.
    + injection H as _ H. apply IH in H. simpl. lia.
Qed.

Lemma closing_last text_content :
  contains closing text_content = true ->
  exists pre, last_occurrence closing text_content pre
                (List.last (py_split closing text_content) []).
Proof.
  intros Hin.
  destruct (py_split_last closing text_content) as [Hclean Hsuf]; [done|].
  destruct (Hsuf Hin) as [pre Hpre]. exists pre.
  by apply last_occurrence_two.
Qed.

(** The loop of lines 86-89 maps the parts holding a closing marker. *)
Lemma extracted_info_map text_content :
  extracted_info text_content =
    (fun part => py_strip (hd [] (py_split closing part)))
      <$> List.filter (contains closing) (py_split opening text_content).
Proof.
  unfold extracted_info.
  generalize (py_split opening text_content) as parts.
  assert (forall parts acc,
    foldl (fun acc part =>
             if contains closing part
             then acc ++ [py_strip (hd [] (py_split closing part))]
             else acc) acc parts
    = acc ++ ((fun part => py_strip (hd [] (py_split closing part)))
                <$> List.filter (contains closing) parts)) as H.
  { induction parts as [|p parts IH]; intros acc; simpl.
    - by rewrite app_nil_r.
    - rewrite IH. destruct (contains closing p); [|done].
      simpl. by rewrite <- app_assoc. }
  intros parts. by rewrite H.
Qed.

(** What occurs in one of the parts occurs in the string they were cut
    from. *)
Lemma contains_join sep sub parts part :
  part ∈ parts -> contains sub part = true -> contains sub (join sep parts) = true.
Proof.
  intros Hin Hsub. apply contains_spec.
  induction Hin as [p l|p q l Hin IH].
  - apply contains_spec in Hsub as (a & b & ->).
    destruct l as [|q l]; simpl.
    + by exists a, b.
    + exists a, (b ++ sep ++ join sep (q :: l)). by rewrite <- !app_assoc.
  - destruct (IH Hsub) as (a' & b' & IH').
    destruct l as [|q' l]; [by inversion Hin|].
    change (join sep (q :: q' :: l)) with (q ++ sep ++ join sep (q' :: l)).
    rewrite IH'. exists (q ++ sep ++ a'), b'. by rewrite <- !app_assoc.
Qed.

Lemma nth_lookup_default (l : list str) i x :
  l !! i = Some x -> nth i l [] = x.
Proof.
  revert i. induction l as [|y l IH]; intros [|i]; simpl; try done.
  - by intros [= ->].
  - apply IH.
Qed.

(** ** The tag parser *)

(** C1.  Tag parsing of a raw annotation string: the string is split on the
    opening marker; every part holding a closing marker yields the stripped
    text before its first closing marker; with fewer than four such fields
    no record is produced; with at least four the record carries field 0 as
    language, field 2 as audio type and, as text, the stripped remainder
    after the last closing marker of the whole string.  The two sample
    inputs of the specification behave as stated. *)
Theorem tag_parser_policy (text_content best_emotion : str) :
  let parts := py_split opening text_content in
  let tagged := List.filter (contains closing) parts in
  (join opening parts = text_content /\
   Forall (fun part => contains opening part = false) parts) /\
  exists fields : list str,
    Forall2 (fun part field =>
               exists pre rest,
                 first_occurrence closing part pre rest /\
                 field = py_strip pre) tagged fields /\
    (length fields < 4 -> tag_record text_content best_emotion = None) /\
    (4 <= length fields ->
       exists pre tail language audio_type,
         last_occurrence closing text_content pre tail /\
         fields !! 0 = Some language /\
         fields !! 2 = Some audio_type /\
         tag_record text_content best_emotion =
           Some [ (lit "Language", language);
                  (lit "Emotion", best_emotion);
                  (lit "Audio Type", audio_type);
                  (lit "Text", py_strip tail) ]) /\
    tag_record (lit "<|EN|><|happy|>") best_emotion = None /\
    tag_record (lit "<|EN|><|happy|><|speech|><|withitn|>hello") best_emotion =
      Some [ (lit "Language", lit "EN");
             (lit "Emotion", best_emotion);
             (lit "Audio Type", lit "speech");
             (lit "Text", lit "hello") ].
Proof.
  intros parts tagged.
  split; [by apply py_split_join|].
  exists (extracted_info text_content).
  pose proof (extracted_info_map text_content) as Hmap.
  fold parts in Hmap. fold tagged in Hmap.
  split; [|split; [|split; [|split]]].
  - rewrite Hmap. apply Forall2_fmap_r, Forall_Forall2_diag, Forall_forall.
    intros part Hpart. apply list_elem_of_In, filter_In in Hpart as [_ Hpart].
    destruct (py_split_head closing part) as (pre & rest & Hfirst & Hhd);
      [done|done|].
    exists pre, rest. by rewrite Hhd.
  - intros Hlen. unfold tag_record.
    destruct (Nat.leb_spec 4 (length (extracted_info text_content))); [lia|done].
  - intros Hlen. unfold tag_record.
    destruct (Nat.leb_spec 4 (length (extracted_info text_content))); [|lia].
    assert (contains closing text_content = true) as Hin.
    { destruct tagged as [|part tagged'] eqn:Etag.
      - rewrite Hmap in Hlen. simpl in Hlen. lia.
      - assert (In part (List.filter (contains closing) parts)) as Hpart
          by (fold tagged; rewrite Etag; by left).
        apply filter_In in Hpart as [Hpart Hclosing].
        destruct (py_split_join opening text_content) as [<- _]; [done|].
        eapply contains_join; [by apply list_elem_of_In|done]. }
    destruct (closing_last text_content Hin) as [pre Hlast].
    destruct (lookup_lt_is_Some_2 (extracted_info text_content) 0) as [f0 Hf0];
      [lia|].
    destruct (lookup_lt_is_Some_2 (extracted_info text_content) 2) as [f2 Hf2];
      [lia|].
    exists pre, (List.last (py_split closing text_content) []), f0, f2.
    split; [done|]. split; [done|]. split; [done|].
    by rewrite (nth_lookup_default _ _ _ Hf0), (nth_lookup_default _ _ _ Hf2).
  - reflexivity.
  - reflexivity.
Qed.

(** ** Truncation and slicing *)

Lemma truncate_integer_part (x : Q) : integer_part x (truncate x).
Proof.
  destruct x as [n d]. unfold integer_part, truncate, Qle, Qlt. simpl.
  rewrite !Z.mul_1_r.
  pose proof (Z.quot_rem' n (Z.pos d)) as Hqr.
  split; intros Hn.
  - pose proof (Z.rem_bound_pos n (Z.pos d) Hn ltac:(lia)). nia.
  - pose proof (Z.rem_bound_pos (- n) (Z.pos d) ltac:(lia) ltac:(lia)) as Hr.
    rewrite Z.rem_opp_l in Hr by done. nia.
Qed.

Lemma integer_part_unique (x : Q) (n m : Z) :
  integer_part x n -> integer_part x m -> n = m.
Proof.
  destruct x as [a d]. unfold integer_part, Qle, Qlt. simpl.
  rewrite !Z.mul_1_r. intros [Hn1 Hn2] [Hm1 Hm2].
  destruct (Z.le_ge_cases 0 a) as [Ha|Ha].
  - specialize (Hn1 Ha). specialize (Hm1 Ha). nia.
  - specialize (Hn2 Ha). specialize (Hm2 Ha). nia.
Qed.

Lemma py_int_Ok (x : float) (n : Z) :
  py_int x = Ok n <-> is_number x = true /\ n = truncate (float_value x).
Proof.
  destruct x; simpl; split; try (intros [= <-]; done); intros [? ?];
    try done; by subst.
Qed.

Lemma py_int_Raise (x : float) (e : exn) :
  py_int x = Raise e ->
  (x = S754_nan /\ e = ValueError) \/
  (exists s, x = S754_infinity s /\ e = OverflowError).
Proof. destruct x; simpl; intros [= <-]; eauto. Qed.

Lemma sample_index_Ok (time : float) (sample_rate n : Z) :
  sample_index time sample_rate = Ok n <->
  exists rate, float_of_int sample_rate = Ok rate /\
    is_number (float_mul time rate) = true /\
    n = truncate (float_value (float_mul time rate)).
Proof.
  unfold sample_index.
  destruct (float_of_int sample_rate) as [rate|e]; simpl.
  - rewrite py_int_Ok. split.
    + intros [? ?]. by exists rate.
    + by intros (? & [= <-] & ? & ?).
  - split; [done|]. by intros (? & [=] & _).
Qed.

Lemma extract_segment_Ok {A} (audio : list A) (start_time end_time : float)
    (sample_rate : Z) (segment : list A) :
  extract_segment audio start_time end_time sample_rate = Ok segment <->
  exists start_sample end_sample,
    sample_index start_time sample_rate = Ok start_sample /\
    sample_index end_time sample_rate = Ok end_sample /\
    segment = py_slice audio start_sample end_sample.
Proof.
  unfold extract_segment.
  destruct (sample_index start_time sample_rate) as [s|e]; simpl.
  - destruct (sample_index end_time sample_rate) as [t|e]; simpl.
    + split.
      * intros [= <-]. by exists s, t.
      * by intros (? & ? & [= <-] & [= <-] & ->).
    + split; [done|]. by intros (? & ? & _ & [=] & _).
  - split; [done|]. by intros (? & ? & [=] & _).
Qed.

Lemma extract_segment_Raise {A} (audio : list A) (start_time end_time : float)
    (sample_rate : Z) (e : exn) :
  extract_segment audio start_time end_time sample_rate = Raise e ->
  sample_index start_time sample_rate = Raise e \/
  sample_index end_time sample_rate = Raise e.
Proof.
  unfold extract_segment.
  destruct (sample_index start_time sample_rate) as [s|e1]; simpl.
  - destruct (sample_index end_time sample_rate) as [t|e2]; simpl.
    + done.
    + intros [= <-]. by right.
  - intros [= <-]. by left.
Qed.

Lemma slice_index_range (len i : Z) :
  (0 <= len -> 0 <= slice_index len i <= len)%Z.
Proof. unfold slice_index. destruct (Z.ltb_spec i 0); lia. Qed.

Lemma slice_index_nonneg (len i : Z) :
  (0 <= i -> slice_index len i = Z.min i len)%Z.
Proof. unfold slice_index. destruct (Z.ltb_spec i 0); lia. Qed.

Lemma py_slice_in_range {A} (l : list A) (start stop : Z) :
  (0 <= start -> start <= stop -> stop <= Z.of_nat (length l) ->
   py_slice l start stop
   = take (Z.to_nat (stop - start)) (drop (Z.to_nat start) l))%Z.
Proof.
  intros H0 H1 H2. unfold py_slice.
  rewrite !slice_index_nonneg by lia.
  by rewrite !Z.min_l by lia.
Qed.

(** The slice itself, for any two bounds. *)
Lemma py_slice_bounds {A} (audio : list A) (start_sample end_sample : Z) :
  let len := Z.of_nat (length audio) in
  let segment := py_slice audio start_sample end_sample in
  (exists lo hi : nat,
     lo <= length audio /\ hi <= length audio /\
     Z.of_nat lo = slice_index len start_sample /\
     Z.of_nat hi = slice_index len end_sample /\
     segment = take (hi - lo) (drop lo audio) /\
     forall k x, segment !! k = Some x -> audio !! (lo + k) = Some x /\ lo + k < hi) /\
  ((0 <= start_sample)%Z -> (0 <= end_sample)%Z ->
   segment = clamped_slice audio start_sample end_sample) /\
  ((0 <= start_sample)%Z -> (len <= end_sample)%Z ->
   segment = drop (Z.to_nat start_sample) audio) /\
  ((start_sample < 0)%Z ->
   slice_index len start_sample = Z.max 0 (len + start_sample)).
Proof.
  intros len segment.
  assert (0 <= len)%Z as Hlen by (unfold len; lia).
  pose proof (slice_index_range len start_sample Hlen) as Hlo.
  pose proof (slice_index_range len end_sample Hlen) as Hhi.
  split; [|split; [|split]].
  - exists (Z.to_nat (slice_index len start_sample)),
           (Z.to_nat (slice_index len end_sample)).
    split; [unfold len in *; lia|]. split; [unfold len in *; lia|].
    split; [lia|]. split; [lia|].
    assert (segment = take (Z.to_nat (slice_index len end_sample)
                            - Z.to_nat (slice_index len start_sample))
                       (drop (Z.to_nat (slice_index len start_sample)) audio))
      as Hseg.
    { unfold segment, py_slice. fold len. f_equal. lia. }
    split; [done|].
    intros k x. rewrite Hseg. intros Hk.
    apply lookup_take_Some in Hk as [Hk Hlt]. rewrite lookup_drop in Hk.
    split; [done|lia].
  - intros H0 H1. unfold segment, py_slice, clamped_slice, clamp.
    fold len.
    rewrite !slice_index_nonneg by done.
    by rewrite !(Z.max_r 0) by lia.
  - intros H0 H1. unfold segment, py_slice. fold len.
    rewrite !slice_index_nonneg by lia.
    rewrite (Z.min_r end_sample) by lia.
    rewrite take_ge by (rewrite length_drop; unfold len; lia).
    destruct (Z.le_gt_cases start_sample len).
    + by rewrite Z.min_l by done.
    + rewrite Z.min_r by lia. rewrite !drop_ge; [done|unfold len in *; lia..].
  - intros Hneg. unfold slice_index.
    destruct (Z.ltb_spec start_sample 0); lia.
Qed.

(** C10.  A range the voice activity detector gives as the sample indices
    1001 and 1004 is not cut as [audio[1001:1004]]: the quotient
    [1001 / 16000] is rounded to the nearest [float], the product with
    16000 is rounded again and falls just below 1001, and [int] truncates
    it to 1000; the segment written is [audio[1000:1004]], one sample
    longer than the detected range.  Indices on the grid of the detector's
    windows, such as 32288 and 512512, come back one lower as well. *)
Theorem segment_audio_off_by_one :
  let segment := {| seg_start := 1001; seg_end := 1004 |} in
  cut_index 1001 = Ok 1000%Z /\
  cut_index 1004 = Ok 1004%Z /\
  cut_index 32288 = Ok 32287%Z /\
  cut_index 512512 = Ok 512511%Z /\
  segment_times segment = Ok (ratio 1001 16000, ratio 1004 16000) /\
  (exists rate, float_of_int 16000 = Ok rate /\
     (1000 < float_value (float_mul (ratio 1001 16000) rate) < 1001)%Q) /\
  sample_index (ratio 1001 16000) 16000 = Ok 1000%Z /\
  sample_index (ratio 1004 16000) 16000 = Ok 1004%Z /\
  segment_audio demo_recording segment = Ok [1000; 1001; 1002; 1003]%Q /\
  py_slice demo_recording 1001 1004 = [1001; 1002; 1003]%Q /\
  segment_audio demo_recording segment
    <> Ok (py_slice demo_recording 1001 1004).
Proof.
  cbv zeta. do 5 (split; [vm_compute; reflexivity|]). split.
  { eexists. split; [by vm_compute|]. by vm_compute. }
  vm_compute. repeat split; congruence.
Qed.

(** C6, as the code has it.  The sample index is [int(t * r)]: the [float]
    product, without its fractional part (truncation toward zero, not
    rounding to nearest), and the result is the slice
    [audio[start_sample:end_sample]]; when
    [0 <= start_sample <= end_sample <= len(audio)] that slice holds the
    samples at positions [start_sample], ..., [end_sample - 1].  The
    extractor returns whenever both products are numbers. *)
Theorem extract_segment_truncates {A} (audio : list A)
    (start_time end_time : float) (sample_rate : Z) :
  (forall segment,
     extract_segment audio start_time end_time sample_rate = Ok segment ->
     exists rate start_sample end_sample,
       float_of_int sample_rate = Ok rate /\
       is_number (float_mul start_time rate) = true /\
       is_number (float_mul end_time rate) = true /\
       integer_part (float_value (float_mul start_time rate)) start_sample /\
       integer_part (float_value (float_mul end_time rate)) end_sample /\
       segment = py_slice audio start_sample end_sample /\
       ((0 <= start_sample)%Z -> (start_sample <= end_sample)%Z ->
        (end_sample <= Z.of_nat (length audio))%Z ->
        length segment = Z.to_nat (end_sample - start_sample) /\
        forall k, k < Z.to_nat (end_sample - start_sample) ->
          segment !! k = audio !! (Z.to_nat start_sample + k))) /\
  (forall rate, float_of_int sample_rate = Ok rate ->
     is_number (float_mul start_time rate) = true ->
     is_number (float_mul end_time rate) = true ->
     exists segment,
       extract_segment audio start_time end_time sample_rate = Ok segment) /\
  (forall (x : Q) (n m : Z), integer_part x n -> integer_part x m -> n = m).
Proof.
  split; [|split].
  - intros segment Hseg.
    apply extract_segment_Ok in Hseg as (s & t & Hs & Ht & ->).
    apply sample_index_Ok in Hs as (rate & Hrate & Hns & ->).
    apply sample_index_Ok in Ht as (rate' & Hrate' & Hnt & ->).
    assert (rate' = rate) as -> by congruence.
    eexists rate, _, _. split; [done|]. split; [done|]. split; [done|].
    split; [apply truncate_integer_part|].
    split; [apply truncate_integer_part|]. split; [done|].
    intros H0 H1 H2. rewrite py_slice_in_range by done. split.
    + rewrite length_take, length_drop. lia.
    + intros k Hk. rewrite lookup_take_lt by done. by rewrite lookup_drop.
  - intros rate Hrate Hns Hnt. eexists. apply extract_segment_Ok.
    eexists _, _. split; [|split; [|done]]; apply sample_index_Ok; by exists rate.
  - apply integer_part_unique.
Qed.

(** C6 fails as stated: with 16000 samples per second a start time of
    3/64000 s lies 0.75 samples in; the code starts at sample 0 where
    rounding to nearest starts at sample 1. *)
Lemma extract_segment_not_rounding :
  let audio := [10; 20; 30; 40]%Z in
  let start_time := ratio 3 64000 in
  let end_time := ratio 1 4000 in
  (exists rate, float_of_int 16000 = Ok rate /\
     (float_value (float_mul start_time rate) == 3 # 4)%Q /\
     py_round_float (float_mul start_time rate) = Ok 1%Z) /\
  sample_index start_time 16000 = Ok 0%Z /\
  extract_segment audio start_time end_time 16000 = Ok [10; 20; 30; 40]%Z /\
  extract_segment_rounding audio start_time end_time 16000
    = Ok [20; 30; 40]%Z /\
  extract_segment audio start_time end_time 16000
    <> extract_segment_rounding audio start_time end_time 16000.
Proof.
  split.
  { eexists. split; [by vm_compute|]. by vm_compute. }
  vm_compute. repeat split; congruence.
Qed.

(** The product is rounded to a [float] before it is truncated: a time of
    [9 / 16000] s times 16000 is 9.0 as a [float], though the rational the
    time stands for, times 16000, lies below 9. *)
Example sample_index_of_rounded_product :
  sample_index (ratio 9 16000) 16000 = Ok 9%Z /\
  truncate (float_value (ratio 9 16000) * 16000) = 8%Z.
Proof. by vm_compute. Qed.

(** C5, as the code has it.  The slice never reaches outside the buffer:
    both bounds are brought into [0, len] before any sample is read, and
    the slice raises nothing; the extractor raises only when a sample
    index cannot be computed.  A bound beyond the buffer is cut to its
    length, so a range that ends past the buffer yields the samples up to
    its end.  A negative sample index is counted from the end of the buffer
    (and only then floored at 0), so the result is the clamped slice
    whenever the start index is not negative and the end index is not
    negative either. *)
Theorem extract_segment_bounds {A} (audio : list A)
    (start_time end_time : float) (sample_rate : Z) :
  let len := Z.of_nat (length audio) in
  (forall start_sample end_sample,
     sample_index start_time sample_rate = Ok start_sample ->
     sample_index end_time sample_rate = Ok end_sample ->
     exists segment,
       extract_segment audio start_time end_time sample_rate = Ok segment /\
       (exists lo hi : nat,
          lo <= length audio /\ hi <= length audio /\
          Z.of_nat lo = slice_index len start_sample /\
          Z.of_nat hi = slice_index len end_sample /\
          segment = take (hi - lo) (drop lo audio) /\
          forall k x, segment !! k = Some x ->
            audio !! (lo + k) = Some x /\ lo + k < hi) /\
       ((0 <= start_sample)%Z -> (0 <= end_sample)%Z ->
        segment = clamped_slice audio start_sample end_sample) /\
       ((0 <= start_sample)%Z -> (len <= end_sample)%Z ->
        segment = drop (Z.to_nat start_sample) audio) /\
       ((start_sample < 0)%Z ->
        slice_index len start_sample = Z.max 0 (len + start_sample))) /\
  (forall segment,
     extract_segment audio start_time end_time sample_rate = Ok segment ->
     exists start_sample end_sample,
       sample_index start_time sample_rate = Ok start_sample /\
       sample_index end_time sample_rate = Ok end_sample) /\
  (forall e,
     extract_segment audio start_time end_time sample_rate = Raise e ->
     sample_index start_time sample_rate = Raise e \/
     sample_index end_time sample_rate = Raise e).
Proof.
  intros len. split; [|split].
  - intros start_sample end_sample Hs Ht.
    exists (py_slice audio start_sample end_sample). split.
    + apply extract_segment_Ok. by eexists _, _.
    + apply py_slice_bounds.
  - intros segment Hseg.
    apply extract_segment_Ok in Hseg as (s & t & Hs & Ht & _). by exists s, t.
  - apply extract_segment_Raise.
Qed.

(** C5 fails as stated: a start time of -0.5 s at 2 samples per second
    gives start sample -1, which the slice reads as the last sample of the
    buffer instead of clamping it to 0. *)
Lemma extract_segment_not_clamped :
  let audio := [10; 20; 30; 40]%Z in
  let start_time := ratio (-1) 2 in
  let end_time := ratio 1 1 in
  (float_value start_time == -1 # 2)%Q /\
  (float_value end_time == 1)%Q /\
  sample_index start_time 2 = Ok (-1)%Z /\
  sample_index end_time 2 = Ok 2%Z /\
  extract_segment audio start_time end_time 2 = Ok [] /\
  clamped_slice audio (-1) 2 = [10; 20]%Z /\
  extract_segment audio start_time end_time 2
    <> Ok (clamped_slice audio (-1) 2).
Proof. vm_compute. repeat split; congruence. Qed.

(** ** The label of the largest score *)

Lemma foldl_max_spec (l : list Q) (m0 : Q) :
  let m := foldl (fun m y => if Qle_bool y m then m else y) m0 l in
  (m0 <= m)%Q /\ (forall x, x ∈ l -> (x <= m)%Q) /\ (m = m0 \/ m ∈ l).
Proof.
  revert m0. induction l as [|y l IH]; intros m0; simpl.
  - split; [apply Qle_refl|]. split; [intros x Hx; inversion Hx|by left].
  - destruct (IH (if Qle_bool y m0 then m0 else y)) as (H1 & H2 & H3).
    set (m := foldl _ _ l) in *.
    destruct (Qle_bool y m0) eqn:E.
    + apply Qle_bool_iff in E. split; [done|]. split.
      * intros x Hx. apply elem_of_cons in Hx as [->|Hx]; [|by apply H2].
        by eapply Qle_trans.
      * destruct H3 as [->|H3]; [by left|right; by right].
    + assert (m0 < y)%Q as Hlt.
      { apply Qnot_le_lt. intros Hle. apply Qle_bool_iff in Hle. congruence. }
      split; [eapply Qle_trans; [by apply Qlt_le_weak|done]|]. split.
      * intros x Hx. apply elem_of_cons in Hx as [->|Hx]; [done|by apply H2].
      * right. destruct H3 as [->|H3]; [by left|by right].
Qed.

Lemma py_max_spec (l : list Q) (m : Q) :
  py_max l = Ok m -> m ∈ l /\ forall x, x ∈ l -> (x <= m)%Q.
Proof.
  destruct l as [|x0 l]; simpl; [done|]. intros [= <-].
  destruct (foldl_max_spec l x0) as (H1 & H2 & H3). split.
  - destruct H3 as [->|H3]; [by left|by right].
  - intros x Hx. apply elem_of_cons in Hx as [->|Hx]; [done|by apply H2].
Qed.

Lemma py_max_total (l : list Q) : l <> [] -> exists m, py_max l = Ok m.
Proof. destruct l; [done|]. simpl. eauto. Qed.

Lemma py_index_Ok (x : Q) (l : list Q) (i : nat) :
  py_index x l = Ok i ->
  exists y, l !! i = Some y /\ (y == x)%Q /\
    forall j z, j < i -> l !! j = Some z -> ~ (z == x)%Q.
Proof.
  revert i. induction l as [|y l IH]; intros i; simpl; [done|].
  destruct (Qeq_bool y x) eqn:E.
  - intros [= <-]. exists y. split; [done|]. split; [by apply Qeq_bool_iff|].
    intros; lia.
  - destruct (py_index x l) as [i0|] eqn:Ei; simpl; [|done].
    intros [= <-]. destruct (IH _ eq_refl) as (y0 & Hy0 & Heq & Hfirst).
    exists y0. split; [done|]. split; [done|].
    intros [|j] z Hj Hz; simpl in Hz.
    + injection Hz as <-. intros Hyx. apply Qeq_bool_iff in Hyx. congruence.
    + apply (Hfirst j); [lia|done].
Qed.

Lemma py_index_total (x : Q) (l : list Q) :
  x ∈ l -> exists i, py_index x l = Ok i.
Proof.
  induction 1 as [y l|y z l Hin [i IH]]; simpl.
  - rewrite (proj2 (Qeq_bool_iff y y)) by apply Qeq_refl. eauto.
  - destruct (Qeq_bool z y); [eauto|]. rewrite IH. simpl. eauto.
Qed.

(** Lines 56-57 pick the label at the first position of the largest score. *)
Lemma best_label_spec (rec_result : list emotion_output) (label : str) :
  best_label rec_result = Ok label ->
  exists r0 rest i,
    rec_result = r0 :: rest /\
    first_argmax (scores r0) i /\
    labels r0 !! i = Some label.
Proof.
  unfold best_label. destruct rec_result as [|r0 rest]; simpl; [done|].
  destruct (py_max (scores r0)) as [m|] eqn:Emax; simpl; [|done].
  destruct (py_index m (scores r0)) as [i|] eqn:Eidx; simpl; [|done].
  unfold py_getitem. destruct (labels r0 !! i) as [lbl|] eqn:Elbl; [|done].
  intros [= <-]. exists r0, rest, i. split; [done|]. split; [|done].
  apply py_max_spec in Emax as [_ Hmax].
  apply py_index_Ok in Eidx as (y & Hy & Heq & Hfirst).
  exists y. split; [done|]. split.
  - intros j x Hx. rewrite Heq. apply Hmax. by eapply list_elem_of_lookup_2.
  - intros j x Hj Hx. rewrite Heq.
    assert (x <= m)%Q as Hle by (apply Hmax; by eapply list_elem_of_lookup_2).
    apply Qle_lt_or_eq in Hle as [Hlt|Hxm]; [exact Hlt|].
    by apply (Hfirst j x) in Hxm.
Qed.

Lemma best_label_total (rec_result : list emotion_output) :
  emotion_well_formed rec_result -> exists label, best_label rec_result = Ok label.
Proof.
  intros (r0 & rest & -> & Hne & Hlen). unfold best_label. simpl.
  destruct (py_max_total _ Hne) as [m Hm]. rewrite Hm. simpl.
  apply py_max_spec in Hm as [Hin _].
  destruct (py_index_total _ _ Hin) as [i Hi]. rewrite Hi. simpl.
  apply py_index_Ok in Hi as (y & Hy & _).
  apply lookup_lt_Some in Hy.
  destruct (lookup_lt_is_Some_2 (labels r0) i) as [lbl Hlbl]; [lia|].
  unfold py_getitem. rewrite Hlbl. eauto.
Qed.

(** ** The results folder *)

Lemma endswith_spec (suffix s : str) :
  endswith suffix s = true <-> exists k, s = k ++ suffix.
Proof.
  unfold endswith. rewrite startswith_spec. split.
  - intros [k Hk]. exists (rev k).
    apply (f_equal (@rev N)) in Hk. rewrite rev_involutive in Hk.
    by rewrite Hk, rev_app_distr, rev_involutive.
  - intros [k ->]. exists (rev k). by rewrite rev_app_distr.
Qed.

(** A segment file is named [*.wav]. *)
Lemma segment_name_wav M audio_file i start_time end_time :
  endswith dot_wav (segment_name M audio_file i start_time end_time) = true.
Proof.
  apply endswith_spec. unfold segment_name.
  eexists. rewrite !app_assoc. reflexivity.
Qed.

Lemma output_results_json_not_wav : endswith dot_wav output_results_json = false.
Proof. reflexivity. Qed.

Lemma listdir_spec (dir : gmap str file) (name : str) :
  name ∈ listdir dir <-> is_Some (dir !! name).
Proof.
  unfold listdir. rewrite list_elem_of_fmap. split.
  - intros ([k x] & -> & Hin). apply elem_of_map_to_list in Hin. by exists x.
  - intros [x Hx]. exists (name, x). split; [done|].
    by apply elem_of_map_to_list.
Qed.

(** The test of line 112 is the [.wav] test: the second conjunct never
    decides, since ['output_results.json'] does not end in ['.wav']. *)
Lemma cleanup_step_wav (dir : gmap str file) (name : str) :
  cleanup_step dir name = if endswith dot_wav name then delete name dir else dir.
Proof.
  unfold cleanup_step. destruct (endswith dot_wav name) eqn:E; [|done].
  rewrite bool_decide_eq_false_2; [done|].
  intros ->. by rewrite output_results_json_not_wav in E.
Qed.

Lemma cleanup_loop_keeps (names : list str) (dir : gmap str file) (name : str) :
  endswith dot_wav name = false ->
  foldl cleanup_step dir names !! name = dir !! name.
Proof.
  intros Hname. revert dir. induction names as [|n names IH]; intros dir; simpl.
  - done.
  - rewrite IH, cleanup_step_wav. destruct (endswith dot_wav n) eqn:E; [|done].
    apply lookup_delete_ne. congruence.
Qed.

Lemma cleanup_loop_absent (names : list str) (dir : gmap str file) (name : str) :
  dir !! name = None -> foldl cleanup_step dir names !! name = None.
Proof.
  revert dir. induction names as [|n names IH]; intros dir Hdir; simpl.
  - done.
  - apply IH. rewrite cleanup_step_wav. destruct (endswith dot_wav n); [|done].
    rewrite lookup_delete. by case_decide.
Qed.

Lemma cleanup_loop_removes (names : list str) (dir : gmap str file) (name : str) :
  name ∈ names -> endswith dot_wav name = true ->
  foldl cleanup_step dir names !! name = None.
Proof.
  intros Hin Hname. revert dir.
  induction names as [|n names IH]; intros dir; simpl.
  - by apply elem_of_nil in Hin.
  - apply elem_of_cons in Hin as [<-|Hin].
    + apply cleanup_loop_absent. rewrite cleanup_step_wav, Hname.
      apply lookup_delete_eq.
    + by apply IH.
Qed.

(** What is left of one file after the clean-up. *)
Lemma cleanup_lookup (dir : gmap str file) (name : str) :
  cleanup dir !! name = if endswith dot_wav name then None else dir !! name.
Proof.
  unfold cleanup. destruct (endswith dot_wav name) eqn:E.
  - destruct (dir !! name) as [x|] eqn:Hx.
    + apply cleanup_loop_removes; [|done]. apply listdir_spec. by exists x.
    + by apply cleanup_loop_absent.
  - by apply cleanup_loop_keeps.
Qed.

(** C7.  The clean-up deletes the files of the results folder whose name
    ends in ['.wav'], which is how the segment files are named, and no
    other file: every other file, among them ['output_results.json'], is
    left as it was.  Cleaning up a second time changes nothing. *)
Theorem cleanup_scope (dir : gmap str file) :
  (forall name, endswith dot_wav name = true -> cleanup dir !! name = None) /\
  (forall name, endswith dot_wav name = false ->
     cleanup dir !! name = dir !! name) /\
  (forall name, cleanup dir !! name = None ->
     dir !! name = None \/ exists k, name = k ++ lit ".wav") /\
  (forall M audio_file i start_time end_time,
     cleanup dir !! segment_name M audio_file i start_time end_time = None) /\
  cleanup dir !! output_results_json = dir !! output_results_json /\
  cleanup (cleanup dir) = cleanup dir.
Proof.
  split; [|split; [|split; [|split; [|split]]]].
  - intros name Hname. by rewrite cleanup_lookup, Hname.
  - intros name Hname. by rewrite cleanup_lookup, Hname.
  - intros name. rewrite cleanup_lookup.
    destruct (endswith dot_wav name) eqn:E; [|by left].
    intros _. right. by apply endswith_spec.
  - intros. by rewrite cleanup_lookup, segment_name_wav.
  - by rewrite cleanup_lookup, output_results_json_not_wav.
  - apply map_eq. intros name. rewrite !cleanup_lookup.
    by destruct (endswith dot_wav name).
Qed.

(** ** The segment loop *)

Lemma segment_times_Ok (segment : vad_segment) (start_time end_time : float) :
  segment_times segment = Ok (start_time, end_time) <->
  int_truediv (seg_start segment) 16000 = Ok start_time /\
  int_truediv (seg_end segment) 16000 = Ok end_time.
Proof.
  unfold segment_times.
  destruct (int_truediv (seg_start segment) 16000) as [s|e]; simpl.
  - destruct (int_truediv (seg_end segment) 16000) as [t|e]; simpl.
    + split; [by intros [= <- <-]|]. by intros [[= <-] [= <-]].
    + split; [done|]. by intros [_ [=]].
  - split; [done|]. by intros [[=] _].
Qed.

Lemma segment_audio_Ok (audio : list Q) (segment : vad_segment)
    (samples : list Q) :
  segment_audio audio segment = Ok samples <->
  exists start_time end_time,
    segment_times segment = Ok (start_time, end_time) /\
    extract_segment audio start_time end_time 16000 = Ok samples.
Proof.
  unfold segment_audio.
  destruct (segment_times segment) as [[s t]|e]; simpl.
  - split; [intros H; by exists s, t|]. by intros (? & ? & [= <- <-] & H).
  - split; [done|]. by intros (? & ? & [=] & _).
Qed.

Lemma segment_file_name_Ok (M : collaborators) (audio_file : str) (i : nat)
    (segment : vad_segment) (name : str) :
  segment_file_name M audio_file i segment = Ok name <->
  exists start_time end_time,
    segment_times segment = Ok (start_time, end_time) /\
    name = segment_name M audio_file i start_time end_time.
Proof.
  unfold segment_file_name.
  destruct (segment_times segment) as [[s t]|e]; simpl.
  - split; [intros [= <-]; by exists s, t|]. by intros (? & ? & [= <- <-] & ->).
  - split; [done|]. by intros (? & ? & [=] & _).
Qed.

(** A range whose samples can be cut has a file name. *)
Lemma segment_file_name_total (M : collaborators) (audio_file : str) (i : nat)
    (audio : list Q) (segment : vad_segment) (samples : list Q) :
  segment_audio audio segment = Ok samples ->
  exists name, segment_file_name M audio_file i segment = Ok name.
Proof.
  intros (s & t & Htimes & _)%segment_audio_Ok.
  eexists. apply segment_file_name_Ok. by exists s, t.
Qed.

Lemma segment_annotation_Ok (M : collaborators) (audio : list Q)
    (segment : vad_segment) (o : option dict) :
  segment_annotation M audio segment = Ok o <->
  exists samples,
    segment_audio audio segment = Ok samples /\
    annotate_segment M (AudioFile samples) = Ok o.
Proof.
  unfold segment_annotation.
  destruct (segment_audio audio segment) as [samples|e]; simpl.
  - split; [intros H; by exists samples|]. by intros (? & [= <-] & H).
  - split; [done|]. by intros (? & [=] & _).
Qed.

Section segment_loop.

Context (M : collaborators) (audio_file : str) (audio : list Q).

Lemma omap_id_cons {A} (o : option A) (opts : list (option A)) :
  omap id (o :: opts) = option_list o ++ omap id opts.
Proof. by destruct o. Qed.

(** One iteration: the times are computed, the segment is cut, saved and
    annotated from the saved file, and the loop goes on with the next
    range. *)
Lemma segments_loop_step i segment rest results dir :
  segments_loop M audio_file audio i (segment :: rest) results dir =
    match segment_file_name M audio_file i segment,
          segment_audio audio segment with
    | Ok name, Ok samples =>
        let dir1 := <[name := AudioFile samples]> dir in
        match annotate_segment M (AudioFile samples) with
        | Ok appended =>
            segments_loop M audio_file audio (S i) rest
              (results ++ option_list appended) dir1
        | Raise e => (Raise e, dir1)
        end
    | Raise e, _ | Ok _, Raise e => (Raise e, dir)
    end.
Proof.
  cbn [segments_loop].
  unfold io_bind, save_audio, read_file, lift, segment_file_name,
    segment_audio, segment_times.
  destruct (int_truediv (seg_start segment) 16000) as [s|e]; [|done].
  destruct (int_truediv (seg_end segment) 16000) as [t|e]; [|done].
  cbn [mbind outcome_bind].
  destruct (extract_segment audio s t 16000) as [samples|e]; [|done].
  rewrite lookup_insert_eq. by destruct (annotate_segment M _).
Qed.

(** The same iteration, seen from the result list. *)
Lemma segments_loop_step_annotation i segment rest results dir o :
  segment_annotation M audio segment = Ok o ->
  exists name samples,
    segment_file_name M audio_file i segment = Ok name /\
    segment_audio audio segment = Ok samples /\
    segments_loop M audio_file audio i (segment :: rest) results dir =
      segments_loop M audio_file audio (S i) rest
        (results ++ option_list o) (<[name := AudioFile samples]> dir).
Proof.
  intros (samples & Hsamples & Ho)%segment_annotation_Ok.
  destruct (segment_file_name_total M audio_file i _ _ _ Hsamples)
    as [name Hname].
  exists name, samples. split; [done|]. split; [done|].
  by rewrite segments_loop_step, Hname, Hsamples, Ho.
Qed.

Lemma segments_loop_Ok vad_segments :
  forall i results dir results' dir',
    segments_loop M audio_file audio i vad_segments results dir
      = (Ok results', dir') ->
    exists opts,
      Forall2 (fun segment o => segment_annotation M audio segment = Ok o)
              vad_segments opts /\
      results' = results ++ omap id opts.
Proof.
  induction vad_segments as [|segment rest IH]; intros i results dir results' dir'.
  - simpl. unfold io_ret. intros [= <- <-]. exists []. split; [constructor|].
    by rewrite app_nil_r.
  - rewrite segments_loop_step.
    destruct (segment_file_name M audio_file i segment) as [name|e]; [|done].
    destruct (segment_audio audio segment) as [samples|e] eqn:Es; [|done].
    cbv zeta.
    destruct (annotate_segment M (AudioFile samples)) as [o|e] eqn:E; [|done].
    intros H. apply IH in H as (opts & Hopts & ->).
    exists (o :: opts). split.
    + constructor; [|done]. apply segment_annotation_Ok. by exists samples.
    + by rewrite omap_id_cons, app_assoc.
Qed.

Lemma segments_loop_run vad_segments opts :
  Forall2 (fun segment o => segment_annotation M audio segment = Ok o)
          vad_segments opts ->
  forall i results dir, exists dir',
    segments_loop M audio_file audio i vad_segments results dir
      = (Ok (results ++ omap id opts), dir').
Proof.
  induction 1 as [|segment o rest opts Ho _ IH]; intros i results dir.
  - exists dir. simpl. unfold io_ret. by rewrite app_nil_r.
  - destruct (segments_loop_step_annotation i segment rest results dir o Ho)
      as (name & samples & _ & _ & ->).
    edestruct IH as [dir' Hdir']. exists dir'. rewrite Hdir'.
    by rewrite omap_id_cons, app_assoc.
Qed.

Lemma build_results_unfold src dir :
  build_results M audio_file src dir =
    match best_label (emotion_pipeline M src) with
    | Ok label =>
        segments_loop M audio_file (read_audio M src) 0
          (get_speech_ts M (read_audio M src))
          [[(lit "Overall Emotion", label)]] dir
    | Raise e => (Raise e, dir)
    end.
Proof.
  unfold build_results, io_bind, lift.
  by destruct (best_label (emotion_pipeline M src)).
Qed.

(** A record appended by an iteration comes from a non-empty recogniser
    result, the label of the segment's own emotion scores, and the tags. *)
Lemma annotate_segment_Some f record :
  annotate_segment M f = Ok (Some record) ->
  exists result items label,
    asr_pipeline M f = AsrList (result :: items) /\
    best_label (emotion_pipeline M f) = Ok label /\
    tag_record (default [] result) label = Some record.
Proof.
  unfold annotate_segment.
  destruct (asr_pipeline M f) as [|[|result items]]; [done|done|].
  destruct (best_label (emotion_pipeline M f)) as [label|] eqn:E; simpl; [|done].
  intros [= H]. by exists result, items, label.
Qed.

Lemma tag_record_Some text_content best_emotion record :
  tag_record text_content best_emotion = Some record ->
  exists language audio_type text,
    record = [ (lit "Language", language);
               (lit "Emotion", best_emotion);
               (lit "Audio Type", audio_type);
               (lit "Text", text) ].
Proof.
  unfold tag_record. destruct (4 <=? _); [|done]. intros [= <-]. eauto.
Qed.

Lemma annotate_segment_total f :
  emotion_well_formed (emotion_pipeline M f) ->
  exists o, annotate_segment M f = Ok o.
Proof.
  intros Hwf. unfold annotate_segment.
  destruct (asr_pipeline M f) as [|[|result items]]; [eauto|eauto|].
  destruct (best_label_total _ Hwf) as [label ->]. simpl. eauto.
Qed.

End segment_loop.

(** ** The result list *)

(** The list built by lines 52-104: the overall record, then what the
    detected ranges contribute, range by range. *)
Lemma build_results_Ok M audio_file src dir results dir' :
  build_results M audio_file src dir = (Ok results, dir') ->
  exists label opts,
    best_label (emotion_pipeline M src) = Ok label /\
    Forall2 (fun segment o =>
               segment_annotation M (read_audio M src) segment = Ok o)
            (get_speech_ts M (read_audio M src)) opts /\
    results = [(lit "Overall Emotion", label)] :: omap id opts.
Proof.
  rewrite build_results_unfold.
  destruct (best_label (emotion_pipeline M src)) as [label|] eqn:E; [|done].
  intros H. apply segments_loop_Ok in H as (opts & Hopts & ->).
  by exists label, opts.
Qed.

(** C2.  Whenever the result list is built it starts with the overall
    emotion record, also when no range was detected, and continues with the
    records of the detected ranges in the order in which the detector
    returned them, each range contributing at most one record, a record
    with the four entries of an annotated segment.  The list is built
    whenever the emotion pipeline keeps to its contract and the samples of
    every detected range can be cut. *)
Theorem result_list_shape (M : collaborators) (audio_file : str) (src : file)
    (dir : gmap str file) :
  let audio := read_audio M src in
  let vad_segments := get_speech_ts M audio in
  (forall results dir',
     build_results M audio_file src dir = (Ok results, dir') ->
     exists label opts,
       best_label (emotion_pipeline M src) = Ok label /\
       Forall2 (fun segment o =>
                  segment_annotation M audio segment = Ok o /\
                  forall record, o = Some record ->
                    exists language emotion audio_type text,
                      record = [ (lit "Language", language);
                                 (lit "Emotion", emotion);
                                 (lit "Audio Type", audio_type);
                                 (lit "Text", text) ])
               vad_segments opts /\
       results = [(lit "Overall Emotion", label)] :: omap id opts /\
       results !! 0 = Some [(lit "Overall Emotion", label)] /\
       (vad_segments = [] -> results = [[(lit "Overall Emotion", label)]])) /\
  ((forall f, emotion_well_formed (emotion_pipeline M f)) ->
   Forall (fun segment => exists samples,
             segment_audio audio segment = Ok samples) vad_segments ->
   exists results dir', build_results M audio_file src dir = (Ok results, dir')).
Proof.
  intros audio vad_segments. split.
  - intros results dir' H.
    apply build_results_Ok in H as (label & opts & Hlabel & Hopts & ->).
    fold audio in Hopts. fold vad_segments in Hopts.
    exists label, opts. split; [done|]. split; [|split; [done|split; [done|]]].
    + eapply Forall2_impl; [exact Hopts|]. intros segment o Ho. split; [done|].
      intros record ->.
      apply segment_annotation_Ok in Ho as (samples & _ & Ho).
      apply annotate_segment_Some in Ho as (result & items & lbl & _ & _ & Htag).
      apply tag_record_Some in Htag as (language & audio_type & text & ->).
      by exists language, lbl, audio_type, text.
    + intros Hnil. rewrite Hnil in Hopts. by inversion Hopts.
  - intros Hwf Hcut. rewrite build_results_unfold.
    destruct (best_label_total _ (Hwf src)) as [label ->].
    assert (exists opts,
      Forall2 (fun segment o => segment_annotation M audio segment = Ok o)
              vad_segments opts) as [opts Hopts].
    { induction Hcut as [|segment rest [samples Hsamples] _ [opts IH]].
      - exists []. constructor.
      - destruct (annotate_segment_total M (AudioFile samples) (Hwf _))
          as [o Ho].
        exists (o :: opts). constructor; [|done].
        apply segment_annotation_Ok. by exists samples. }
    destruct (segments_loop_run M audio_file audio vad_segments opts Hopts 0
                [[(lit "Overall Emotion", label)]] dir) as [dir' Hdir'].
    eauto.
Qed.

Lemma first_argmax_unique (l : list Q) (i j : nat) :
  first_argmax l i -> first_argmax l j -> i = j.
Proof.
  intros (m & Hm & Hmax & Hfirst) (m' & Hm' & Hmax' & Hfirst').
  destruct (Nat.lt_trichotomy i j) as [Hlt|[Heq|Hlt]]; [|done|].
  - pose proof (Hfirst' i m Hlt Hm) as H1.
    pose proof (Hmax j m' Hm') as H2.
    exfalso. by apply (Qlt_not_le _ _ H1).
  - pose proof (Hfirst j m' Hlt Hm') as H1.
    pose proof (Hmax' i m Hm) as H2.
    exfalso. by apply (Qlt_not_le _ _ H1).
Qed.

Lemma tag_record_fields (text_content best_emotion : str) (record : dict) :
  tag_record text_content best_emotion = Some record ->
  let info := extracted_info text_content in
  4 <= length info /\
  record = [ (lit "Language", nth 0 info []);
             (lit "Emotion", best_emotion);
             (lit "Audio Type", nth 2 info []);
             (lit "Text",
              py_strip (List.last (py_split closing text_content) [])) ].
Proof.
  unfold tag_record.
  destruct (Nat.leb_spec 4 (length (extracted_info text_content))); [|done].
  by intros [= <-].
Qed.

(** C3.  Every emotion label in the result list is the label found at the
    first position of the largest score returned by the emotion pipeline
    for the audio in question: the whole file for the overall record, the
    saved segment for a segment record.  The records follow the detected
    ranges in order; the record of a range carries the label of that
    range's own scores under ["Emotion"], next to the language, the audio
    type and the text that the tag parser takes from that range's own
    transcript, whatever the tags of the transcript say about emotion.
    The first position of the largest score is unique. *)
Theorem emotion_labels_first_argmax (M : collaborators) (audio_file : str)
    (src : file) (dir : gmap str file) (results : list dict)
    (dir' : gmap str file) :
  build_results M audio_file src dir = (Ok results, dir') ->
  let audio := read_audio M src in
  (exists label opts,
     (exists r0 rest i,
        emotion_pipeline M src = r0 :: rest /\
        first_argmax (scores r0) i /\
        labels r0 !! i = Some label) /\
     results = [(lit "Overall Emotion", label)] :: omap id opts /\
     Forall2 (fun segment o =>
                segment_annotation M audio segment = Ok o /\
                forall record, o = Some record ->
                  exists samples result items r0 rest i best_emotion,
                    segment_audio audio segment = Ok samples /\
                    asr_pipeline M (AudioFile samples)
                      = AsrList (result :: items) /\
                    emotion_pipeline M (AudioFile samples) = r0 :: rest /\
                    first_argmax (scores r0) i /\
                    labels r0 !! i = Some best_emotion /\
                    let text_content := default [] result in
                    let info := extracted_info text_content in
                    record =
                      [ (lit "Language", nth 0 info []);
                        (lit "Emotion", best_emotion);
                        (lit "Audio Type", nth 2 info []);
                        (lit "Text",
                         py_strip
                           (List.last (py_split closing text_content) [])) ])
             (get_speech_ts M audio) opts) /\
  (forall (l : list Q) (i j : nat),
     first_argmax l i -> first_argmax l j -> i = j).
Proof.
  intros Hrun audio. split; [|apply first_argmax_unique].
  apply build_results_Ok in Hrun as (label & opts & Hlabel & Hopts & ->).
  fold audio in Hopts. exists label, opts. split; [|split; [done|]].
  - apply best_label_spec in Hlabel as (r0 & rest & i & Hr0 & Harg & Hlbl).
    by exists r0, rest, i.
  - eapply Forall2_impl; [exact Hopts|]. intros segment o Ho. split; [done|].
    intros record ->.
    apply segment_annotation_Ok in Ho as (samples & Hsamples & Ho).
    apply annotate_segment_Some in Ho as (result & items & lbl & Hasr & Hlbl & Htag).
    apply best_label_spec in Hlbl as (r0 & rest & i & Hr0 & Harg & Hlbl).
    apply tag_record_fields in Htag as [_ ->].
    by exists samples, result, items, r0, rest, i, lbl.
Qed.

(** The scenario of C3: the transcript of the first range is tagged [SAD],
    the scores of the segment put [happy] first among the two largest, and
    the record says [happy]. *)
Lemma emotion_labels_first_argmax_witness :
  build_results demo demo_path demo_src demo_folder
    = (Ok demo_results, (build_results demo demo_path demo_src demo_folder).2) /\
  demo_results !! 1 = Some [ (lit "Language", lit "EN");
                             (lit "Emotion", lit "happy");
                             (lit "Audio Type", lit "Speech");
                             (lit "Text", lit "hello") ] /\
  exists label opts,
    (exists r0 rest i,
       emotion_pipeline demo demo_src = r0 :: rest /\
       first_argmax (scores r0) i /\
       labels r0 !! i = Some label) /\
    demo_results = [(lit "Overall Emotion", label)] :: omap id opts /\
    length opts = length (get_speech_ts demo (read_audio demo demo_src)).
Proof.
  assert (build_results demo demo_path demo_src demo_folder
    = (Ok demo_results, (build_results demo demo_path demo_src demo_folder).2))
    as H by (vm_compute; reflexivity).
  split; [exact H|]. split; [reflexivity|].
  destruct (proj1 (emotion_labels_first_argmax demo demo_path demo_src
                     demo_folder demo_results _ H))
    as (label & opts & Hlabel & Hres & Hopts).
  exists label, opts. split; [exact Hlabel|]. split; [exact Hres|].
  symmetry. exact (Forall2_length _ _ _ Hopts).
Defined.

(** ** Segments without a transcript *)

Lemma tag_record_empty (best_emotion : str) : tag_record [] best_emotion = None.
Proof. reflexivity. Qed.





(** ** Persisting the result list *)

Lemma process_audio_file_unfold M st audio_file src dir :
  process_audio_file M st audio_file src dir =
    match build_results M audio_file src dir with
    | (Ok results, dir1) =>
        match write_results st results dir1 with
        | (Ok _, dir2) => (Ok PyNone, cleanup dir2)
        | (Raise e, dir2) => (Raise e, dir2)
        end
    | (Raise e, dir1) => (Raise e, dir1)
    end.
Proof.
  unfold process_audio_file, io_bind, io_ret, remove_segment_files.
  destruct (build_results M audio_file src dir) as [[results|e] dir1]; [|done].
  by destruct (write_results st results dir1) as [[[]|e] dir2].
Qed.

(** The chunks, put together, are the text. *)
Lemma separated_concat {A} (sep : str) (f : A -> list str) (l : list A) :
  concat (separated sep f l) = join sep ((fun x => concat (f x)) <$> l).
Proof.
  induction l as [|x [|y l] IH]; [done|done|].
  change (separated sep f (x :: y :: l))
    with (f x ++ [sep] ++ separated sep f (y :: l)).
  rewrite !concat_app, IH. cbn [concat]. by rewrite app_nil_r.
Qed.

Lemma json_item_chunks_concat (kv : str * str) :
  concat (json_item_chunks kv) = json_item kv.
Proof.
  unfold json_item_chunks, json_item. cbn [concat]. by rewrite app_nil_r.
Qed.

Lemma json_dict_chunks_concat (d : dict) :
  concat (json_dict_chunks d) = json_dict d.
Proof.
  destruct d as [|kv d]; [done|].
  unfold json_dict_chunks, json_dict.
  rewrite !concat_app, separated_concat.
  rewrite (list_fmap_ext _ json_item (kv :: d))
    by (intros; apply json_item_chunks_concat).
  cbn [concat]. by rewrite !app_nil_r, <- !app_assoc.
Qed.

Lemma json_chunks_concat (results : list dict) :
  concat (json_chunks results) = json_dump results.
Proof.
  destruct results as [|d results]; [done|].
  unfold json_chunks, json_dump.
  rewrite !concat_app, separated_concat.
  rewrite (list_fmap_ext _ json_dict (d :: results))
    by (intros; apply json_dict_chunks_concat).
  cbn [concat]. by rewrite !app_nil_r, <- !app_assoc.
Qed.

(** What [json.dump] got written before a chunk that cannot be encoded. *)
Lemma encodable_chunks_split (chunks : list str) :
  exists rest,
    chunks = encodable_chunks chunks ++ rest /\
    if forallb encodable chunks then rest = [] else concat rest <> [].
Proof.
  induction chunks as [|chunk chunks (rest & IH1 & IH2)].
  - by exists [].
  - simpl. destruct (encodable chunk) eqn:E.
    + exists rest. simpl. split; [by rewrite <- IH1|done].
    + exists (chunk :: chunks). split; [done|]. simpl.
      by destruct chunk.
Qed.

Lemma write_results_Ok (st : storage) (results : list dict) (dir dir2 : folder) :
  write_results st results dir = (Ok (), dir2) ->
  forallb encodable (json_chunks results) = true /\
  dir2 = <[output_results_json := TextFile (json_dump results)]> dir.
Proof.
  unfold write_results. cbv zeta.
  destruct (encodable_chunks_split (json_chunks results)) as (rest & Hsplit & Hrest).
  assert (
    (if forallb encodable (json_chunks results) then Ok ()
     else Raise UnicodeEncodeError,
     <[output_results_json :=
         TextFile (concat (encodable_chunks (json_chunks results)))]> dir)
      = (Ok (), dir2) ->
    forallb encodable (json_chunks results) = true /\
    dir2 = <[output_results_json := TextFile (json_dump results)]> dir) as Hd.
  { destruct (forallb encodable (json_chunks results)); [|done].
    subst rest. rewrite app_nil_r in Hsplit. rewrite <- Hsplit, json_chunks_concat.
    by intros [= <-]. }
  destruct st as [|k|]; [done| |by apply Hd].
  destruct (_ <=? k); [by apply Hd|done].
Qed.

Lemma write_results_Raise (st : storage) (results : list dict)
    (dir dir2 : folder) (e : exn) :
  write_results st results dir = (Raise e, dir2) ->
  (e = OSError \/ e = UnicodeEncodeError) /\
  ((st = CannotOpen /\ dir2 = dir) \/
   (st <> CannotOpen /\
    exists written rest,
      rest <> [] /\
      json_dump results = written ++ rest /\
      dir2 = <[output_results_json := TextFile written]> dir)).
Proof.
  unfold write_results. cbv zeta.
  destruct (encodable_chunks_split (json_chunks results)) as (rest & Hsplit & Hrest).
  apply (f_equal (@concat N)) in Hsplit.
  rewrite concat_app, json_chunks_concat in Hsplit.
  set (written := concat (encodable_chunks (json_chunks results))) in *.
  assert ((if forallb encodable (json_chunks results) then Ok ()
           else Raise UnicodeEncodeError,
           <[output_results_json := TextFile written]> dir) = (Raise e, dir2) ->
    e = UnicodeEncodeError /\
    exists written rest,
      rest <> [] /\
      json_dump results = written ++ rest /\
      dir2 = <[output_results_json := TextFile written]> dir) as Hd.
  { destruct (forallb encodable (json_chunks results)); [done|].
    intros [= <- <-]. split; [done|]. by exists written, (concat rest). }
  destruct st as [|k|].
  - intros [= <- <-]. split; [by left|]. by left.
  - destruct (Nat.leb_spec (length written) k) as [Hk|Hk].
    + intros H. apply Hd in H as [-> H]. split; [by right|]. by right.
    + intros [= <- <-]. split; [by left|]. right. split; [done|].
      exists (take k written), (drop k written ++ concat rest).
      split; [|split; [|done]].
      * intros Hnil. apply (f_equal length) in Hnil.
        rewrite length_app, length_drop in Hnil. simpl in Hnil. lia.
      * by rewrite app_assoc, take_drop.
  - intros H. apply Hd in H as [-> H]. split; [by right|]. by right.
Qed.

(** C8, as the code has it.  The artifact is opened in place and written
    into directly.  A write that succeeds leaves the complete serialisation
    of the result list in the artifact.  A write that fails makes the run
    fail with its error, and no clean-up is done; the artifact is then as
    it was when the file could not be opened, and otherwise it holds a
    proper prefix of the new serialisation and nothing of what it held
    before. *)
Theorem write_results_in_place (M : collaborators) (st : storage)
    (audio_file : str) (src : file) (dir : gmap str file)
    (results : list dict) (dir1 : gmap str file) :
  build_results M audio_file src dir = (Ok results, dir1) ->
  let text := json_dump results in
  let run := process_audio_file M st audio_file src dir in
  (forall dir2,
     write_results st results dir1 = (Ok (), dir2) ->
     run = (Ok PyNone, cleanup dir2) /\
     dir2 !! output_results_json = Some (TextFile text) /\
     run.2 !! output_results_json = Some (TextFile text)) /\
  (forall e dir2,
     write_results st results dir1 = (Raise e, dir2) ->
     run = (Raise e, dir2) /\
     (e = OSError \/ e = UnicodeEncodeError) /\
     ((st = CannotOpen /\ dir2 = dir1) \/
      (st <> CannotOpen /\
       exists written rest,
         rest <> [] /\ text = written ++ rest /\ written <> text /\
         dir2 !! output_results_json = Some (TextFile written) /\
         forall name, name <> output_results_json ->
           dir2 !! name = dir1 !! name))) /\
  (st = CannotOpen -> run = (Raise OSError, dir1)) /\
  (forall k, st = TakesOnly k ->
     k < length (concat (encodable_chunks (json_chunks results))) ->
     run = (Raise OSError,
            <[output_results_json := TextFile (take k text)]> dir1)) /\
  (st = TakesAll -> exists dir2,
     write_results st results dir1
       = (if forallb encodable (json_chunks results)
          then Ok () else Raise UnicodeEncodeError, dir2)).
Proof.
  intros Hbuild text run.
  assert (run = match write_results st results dir1 with
                | (Ok _, dir2) => (Ok PyNone, cleanup dir2)
                | (Raise e, dir2) => (Raise e, dir2)
                end) as Hrun.
  { unfold run. by rewrite process_audio_file_unfold, Hbuild. }
  split; [|split; [|split; [|split]]].
  - intros dir2 Hw. rewrite Hrun, Hw.
    apply write_results_Ok in Hw as [_ ->].
    split; [done|]. split; [apply lookup_insert_eq|]. simpl.
    rewrite cleanup_lookup, output_results_json_not_wav.
    apply lookup_insert_eq.
  - intros e dir2 Hw. rewrite Hrun, Hw. split; [done|].
    apply write_results_Raise in Hw as [He Hw]. split; [done|].
    destruct Hw as [Hw|[Hst (written & rest & Hrest & Htext & ->)]]; [by left|].
    right. split; [done|]. exists written, rest.
    split; [done|]. split; [done|]. split; [|split].
    + unfold text. rewrite Htext. intros Heq.
      apply (f_equal length) in Heq. rewrite length_app in Heq.
      destruct rest; [done|]. simpl in Heq. lia.
    + apply lookup_insert_eq.
    + intros name Hname. by apply lookup_insert_ne.
  - intros ->. by rewrite Hrun.
  - intros k -> Hk. rewrite Hrun. unfold write_results.
    destruct (Nat.leb_spec
      (length (concat (encodable_chunks (json_chunks results)))) k) as [Hle|_];
      [lia|].
    destruct (encodable_chunks_split (json_chunks results))
      as (rest & Hsplit & _).
    apply (f_equal (@concat N)) in Hsplit.
    rewrite concat_app, json_chunks_concat in Hsplit.
    unfold text. rewrite Hsplit.
    by rewrite take_app_le by lia.
  - intros ->. eexists. reflexivity.
Qed.

Lemma write_results_in_place_witness :
  build_results demo demo_path demo_src demo_folder
    = (Ok demo_results, (build_results demo demo_path demo_src demo_folder).2) /\
  (process_audio_file demo CannotOpen demo_path demo_src demo_folder
     = (Raise OSError, (build_results demo demo_path demo_src demo_folder).2)) /\
  (process_audio_file demo (TakesOnly 5) demo_path demo_src demo_folder
     = (Raise OSError,
        <[output_results_json := TextFile (take 5 (json_dump demo_results))]>
          (build_results demo demo_path demo_src demo_folder).2)).
Proof.
  assert (build_results demo demo_path demo_src demo_folder
    = (Ok demo_results, (build_results demo demo_path demo_src demo_folder).2))
    as H by (vm_compute; reflexivity).
  split; [exact H|]. split.
  - exact (proj1 (proj2 (proj2
      (write_results_in_place demo CannotOpen demo_path demo_src
         demo_folder demo_results _ H))) eq_refl).
  - refine (proj1 (proj2 (proj2 (proj2
      (write_results_in_place demo (TakesOnly 5) demo_path demo_src
         demo_folder demo_results _ H)))) 5 eq_refl _).
    vm_compute. lia.
Defined.

(** C8 fails as stated: in the scenario, with storage for five characters
    only, the run fails and the artifact of the earlier run has been
    replaced by the first five characters of the new text. *)
Lemma failed_write_leaves_partial_artifact :
  let run := process_audio_file demo (TakesOnly 5) demo_path demo_src demo_folder in
  run.1 = Raise OSError /\
  demo_folder !! output_results_json
    = Some (TextFile (json_dump [[(lit "Overall Emotion", lit "neutral")]])) /\
  run.2 !! output_results_json = Some (TextFile (take 5 (json_dump demo_results))) /\
  ~ artifact_atomic demo_folder run.2 demo_results.
Proof.
  cbv zeta. split; [vm_compute; reflexivity|].
  split; [vm_compute; reflexivity|].
  split; [vm_compute; reflexivity|].
  unfold artifact_atomic. intros [H|H]; vm_compute in H; discriminate H.
Qed.

(** A label with a lone surrogate cannot be encoded: the write raises
    [UnicodeEncodeError] and the artifact holds the chunks written before
    the label. *)
Example unencodable_label_leaves_partial_artifact :
  write_results TakesAll demo_unencodable demo_folder
    = (Raise UnicodeEncodeError,
       {[ output_results_json :=
            TextFile (lit "[" ++ newline_indent 4 ++ lit "{" ++ newline_indent 8
                      ++ json_string (lit "Overall Emotion") ++ lit ": ") ]}).
Proof. vm_compute. reflexivity. Qed.

(** A file that cannot be opened leaves the folder as it is. *)
Example unopened_artifact_untouched :
  write_results CannotOpen demo_results demo_folder = (Raise OSError, demo_folder).
Proof. reflexivity. Qed.

(** ** The value returned *)

(** C9, as the code has it.  [process_audio_file] has no [return]: a run
    that completes evaluates to [None], and the result list is handed over
    through the artifact, which holds its serialisation. *)
Theorem process_audio_file_returns_none (M : collaborators)
    (st : storage) (audio_file : str) (src : file)
    (dir : gmap str file) (v : pyval) (dir' : gmap str file) :
  process_audio_file M st audio_file src dir = (Ok v, dir') ->
  v = PyNone /\
  exists results dir1,
    build_results M audio_file src dir = (Ok results, dir1) /\
    dir' !! output_results_json = Some (TextFile (json_dump results)).
Proof.
  rewrite process_audio_file_unfold.
  destruct (build_results M audio_file src dir) as [[results|e] dir1]; [|done].
  destruct (write_results st results dir1) as [[[]|e] dir2] eqn:Hw; [|done].
  intros [= <- <-]. split; [done|]. exists results, dir1. split; [done|].
  rewrite cleanup_lookup, output_results_json_not_wav.
  apply write_results_Ok in Hw as [_ ->]. apply lookup_insert_eq.
Qed.

Lemma process_audio_file_returns_none_witness :
  process_audio_file demo TakesAll demo_path demo_src demo_folder
    = (Ok PyNone,
       (process_audio_file demo TakesAll demo_path demo_src demo_folder).2) /\
  exists results dir1,
    build_results demo demo_path demo_src demo_folder = (Ok results, dir1) /\
    (process_audio_file demo TakesAll demo_path demo_src demo_folder).2
      !! output_results_json = Some (TextFile (json_dump results)).
Proof.
  assert (process_audio_file demo TakesAll demo_path demo_src demo_folder
    = (Ok PyNone,
       (process_audio_file demo TakesAll demo_path demo_src demo_folder).2))
    as H by (vm_compute; reflexivity).
  split; [exact H|].
  exact (proj2 (process_audio_file_returns_none demo TakesAll demo_path demo_src
                  demo_folder PyNone _ H)).
Defined.

(** C9 fails as stated: in the scenario the run completes, the result list
    has two records, and the value returned is [None], not that list. *)
Lemma process_audio_file_not_result_list :
  let run := process_audio_file demo TakesAll demo_path demo_src demo_folder in
  (build_results demo demo_path demo_src demo_folder).1 = Ok demo_results /\
  run.1 = Ok PyNone /\
  run.1 <> Ok (PyList demo_results).
Proof.
  cbv zeta. split; [vm_compute; reflexivity|].
  split; [vm_compute; reflexivity|].
  intros H. vm_compute in H. discriminate H.
Qed.

(** ** The scenario, end to end *)

Example demo_segment_name :
  segment_file_name demo demo_path 0 {| seg_start := 1; seg_end := 3 |}
    = Ok (lit "talk_segment_1_0.00-0.00.wav").
Proof. vm_compute. reflexivity. Qed.

(** Ranges of 80 and 240 samples: both times are printed as [0.01]. *)
Example demo_segment_name_rounded :
  segment_file_name demo demo_path 0 {| seg_start := 80; seg_end := 240 |}
    = Ok (lit "talk_segment_1_0.01-0.01.wav").
Proof. vm_compute. reflexivity. Qed.

(** A run that completes leaves the new artifact and no segment file. *)
Example demo_run :
  process_audio_file demo TakesAll demo_path demo_src demo_folder
    = (Ok PyNone, {[ output_results_json := TextFile (json_dump demo_results) ]}).
Proof. vm_compute. reflexivity. Qed.

(** A run whose write fails leaves the two segment files behind. *)
Example demo_failed_run :
  listdir (process_audio_file demo (TakesOnly 5) demo_path demo_src demo_folder).2
    ≡ₚ [ lit "talk_segment_1_0.00-0.00.wav";
         lit "talk_segment_2_0.00-0.00.wav";
         output_results_json ].
Proof. vm_compute. apply perm_swap. Qed.

(* ===================================================================== *)
(** * Part III: further properties of the code *)
(* ===================================================================== *)

(** ** When the label selection raises *)

(** X1.  Lines 56-57 raise [IndexError] on an empty pipeline result and
    [ValueError] on an empty score list.  With at least one score,
    [scores.index(max(scores))] never raises: it is the first position of
    the largest score, and the only error left is the [IndexError] of a
    label list too short to have that position. *)
Theorem best_label_raises (rec_result : list emotion_output) :
  (rec_result = [] -> best_label rec_result = Raise IndexError) /\
  (forall r0 rest, rec_result = r0 :: rest -> scores r0 = [] ->
     best_label rec_result = Raise ValueError) /\
  (forall r0 rest, rec_result = r0 :: rest -> scores r0 <> [] ->
     exists i,
       first_argmax (scores r0) i /\
       best_label rec_result =
         match labels r0 !! i with
         | Some label => Ok label
         | None => Raise IndexError
         end).
Proof.
  split; [by intros ->|]. split.
  - intros r0 rest -> Hs. unfold best_label. simpl. by rewrite Hs.
  - intros r0 rest -> Hs. unfold best_label. simpl.
    destruct (py_max_total _ Hs) as [m Hm]. rewrite Hm. simpl.
    destruct (py_max_spec _ _ Hm) as [Hin Hmax].
    destruct (py_index_total _ _ Hin) as [i Hi]. rewrite Hi. simpl.
    exists i. split; [|done].
    apply py_index_Ok in Hi as (y & Hy & Heq & Hfirst).
    exists y. split; [done|]. split.
    + intros j x Hx. rewrite Heq. apply Hmax. by eapply list_elem_of_lookup_2.
    + intros j x Hj Hx. rewrite Heq.
      assert (x <= m)%Q as Hle by (apply Hmax; by eapply list_elem_of_lookup_2).
      apply Qle_lt_or_eq in Hle as [Hlt|Hxm]; [exact Hlt|].
      by apply (Hfirst j x) in Hxm.
Qed.

(** ** What the segment loop does to the results folder *)

Section loop_folder.

Context (M : collaborators) (audio_file : str) (audio : list Q).

Lemma segments_loop_writes vad_segments :
  forall i results dir o dir',
    segments_loop M audio_file audio i vad_segments results dir = (o, dir') ->
    forall name,
      dir' !! name = dir !! name \/
      exists k segment samples,
        vad_segments !! k = Some segment /\
        segment_file_name M audio_file (i + k) segment = Ok name /\
        segment_audio audio segment = Ok samples /\
        dir' !! name = Some (AudioFile samples).
Proof.
  induction vad_segments as [|segment rest IH]; intros i results dir o dir' Hrun name.
  - simpl in Hrun. unfold io_ret in Hrun. injection Hrun as <- <-. by left.
  - rewrite segments_loop_step in Hrun.
    destruct (segment_file_name M audio_file i segment) as [name0|e0] eqn:Hname0;
      [|injection Hrun as <- <-; by left].
    destruct (segment_audio audio segment) as [samples|e0] eqn:Hsamples;
      [|injection Hrun as <- <-; by left].
    cbv zeta in Hrun.
    assert (forall d : gmap str file,
      d !! name = <[name0 := AudioFile samples]> dir !! name ->
      d !! name = dir !! name \/
      exists k seg smp, (segment :: rest) !! k = Some seg /\
        segment_file_name M audio_file (i + k) seg = Ok name /\
        segment_audio audio seg = Ok smp /\
        d !! name = Some (AudioFile smp)) as Hhere.
    { intros d Hd. destruct (decide (name = name0)) as [->|Hne].
      - right. exists 0, segment, samples. rewrite Nat.add_0_r. split; [done|].
        split; [done|]. split; [done|]. by rewrite Hd, lookup_insert_eq.
      - left. by rewrite Hd, lookup_insert_ne. }
    destruct (annotate_segment M (AudioFile samples)) as [appended|e].
    + destruct (IH _ _ _ _ _ Hrun name)
        as [Hsame|(k & seg & smp & Hk & Hname & Hsmp & Hfile)].
      * by apply Hhere.
      * right. exists (S k), seg, smp. split; [done|].
        by rewrite Nat.add_succ_r.
    + injection Hrun as <- <-. by apply Hhere.
Qed.

(** The list that comes out of the loop does not depend on what the
    results folder held. *)
Lemma segments_loop_outcome vad_segments :
  forall i results dir dir2,
    (segments_loop M audio_file audio i vad_segments results dir).1
    = (segments_loop M audio_file audio i vad_segments results dir2).1.
Proof.
  induction vad_segments as [|segment rest IH]; intros i results dir dir2.
  - done.
  - rewrite !segments_loop_step.
    destruct (segment_file_name M audio_file i segment); [|done].
    destruct (segment_audio audio segment) as [samples|]; [|done]. cbv zeta.
    destruct (annotate_segment M (AudioFile samples)); [apply IH|done].
Qed.

(** Where the loop raises: at the first range whose samples cannot be cut,
    with nothing written for it, or whose annotation raises, with that
    range's file just written. *)
Lemma segments_loop_Raise vad_segments :
  forall i results dir e dir',
    segments_loop M audio_file audio i vad_segments results dir = (Raise e, dir') ->
    exists k segment,
      vad_segments !! k = Some segment /\
      segment_annotation M audio segment = Raise e /\
      (forall j earlier, j < k -> vad_segments !! j = Some earlier ->
         exists o, segment_annotation M audio earlier = Ok o) /\
      (segment_audio audio segment = Raise e \/
       exists name samples,
         segment_file_name M audio_file (i + k) segment = Ok name /\
         segment_audio audio segment = Ok samples /\
         annotate_segment M (AudioFile samples) = Raise e /\
         dir' !! name = Some (AudioFile samples)).
Proof.
  induction vad_segments as [|segment rest IH]; intros i results dir e dir' Hrun.
  - done.
  - rewrite segments_loop_step in Hrun.
    destruct (segment_audio audio segment) as [samples|e0] eqn:Hsamples.
    + destruct (segment_file_name_total M audio_file i _ _ _ Hsamples)
        as [name Hname].
      rewrite Hname in Hrun. cbv zeta in Hrun.
      destruct (annotate_segment M (AudioFile samples)) as [appended|e1] eqn:Hann.
      * apply IH in Hrun as (k & seg & Hk & Hseg & Hearlier & Hfile).
        exists (S k), seg. split; [done|]. split; [done|]. split.
        -- intros [|j] earlier Hj Hlook; simpl in Hlook.
           ++ injection Hlook as <-. exists appended.
              apply segment_annotation_Ok. by exists samples.
           ++ apply (Hearlier j); [lia|done].
        -- by rewrite Nat.add_succ_r.
      * injection Hrun as <- <-. exists 0, segment. split; [done|].
        split; [unfold segment_annotation; by rewrite Hsamples|].
        split; [intros; lia|]. right. exists name, samples.
        rewrite Nat.add_0_r. split; [done|]. split; [done|]. split; [done|].
        apply lookup_insert_eq.
    + assert (e0 = e) as ->.
      { destruct (segment_file_name M audio_file i segment) eqn:Hname.
        - by injection Hrun as <- <-.
        - injection Hrun as <- <-.
          unfold segment_file_name in Hname. unfold segment_audio in Hsamples.
          destruct (segment_times segment) as [[s t]|]; [done|].
          simpl in *. congruence. }
      exists 0, segment. split; [done|].
      split; [unfold segment_annotation; by rewrite Hsamples|].
      split; [intros; lia|]. by left.
Qed.

End loop_folder.

(** ** Names of the segment files *)

Lemma lit_inj (s t : string) : lit s = lit t -> s = t.
Proof.
  revert t. induction s as [|a s IH]; intros [|b t]; simpl; try done.
  intros [= Hab Hst]. apply (f_equal ascii_of_N) in Hab.
  rewrite !ascii_N_embedding in Hab. subst b. f_equal. by apply IH.
Qed.

Lemma dec_inj (n m : nat) : dec n = dec m -> n = m.
Proof.
  unfold dec. intros H. apply lit_inj in H.
  apply Unsigned.to_uint_inj.
  apply (f_equal NilEmpty.uint_of_string) in H.
  rewrite !NilEmpty.usu in H. by injection H.
Qed.

Lemma dec_digits (n : nat) (c : N) : c ∈ dec n -> (48 <= c <= 57)%N.
Proof.
  unfold dec. generalize (Nat.to_uint n) as d.
  induction d as [|d IH|d IH|d IH|d IH|d IH|d IH|d IH|d IH|d IH|d IH];
    cbn [NilEmpty.string_of_uint lit list_ascii_of_string fmap list_fmap];
    intros Hc.
  1: by apply elem_of_nil in Hc.
  all: apply elem_of_cons in Hc as [->|Hc]; [simpl; lia|by apply IH].
Qed.

(** Two texts that agree up to and including a character which neither has
    before that point have the same beginning. *)
Lemma app_cons_inv_head (c : N) (a b x y : str) :
  c ∉ a -> c ∉ b -> a ++ c :: x = b ++ c :: y -> a = b.
Proof.
  revert b. induction a as [|a0 a IH]; intros [|b0 b] Ha Hb H; simpl in H.
  - done.
  - injection H as -> _. exfalso. apply Hb. by left.
  - injection H as -> _. exfalso. apply Ha. by left.
  - injection H as -> H. f_equal. apply IH; [| |done].
    + intros Hin. apply Ha. by right.
    + intros Hin. apply Hb. by right.
Qed.

Lemma segment_name_index M audio_file i j start_time end_time start_time' end_time' :
  segment_name M audio_file i start_time end_time
    = segment_name M audio_file j start_time' end_time' ->
  i = j.
Proof.
  unfold segment_name. intros H.
  apply app_inv_head in H. apply app_inv_head in H.
  assert (forall n, 95%N ∉ dec n) as Hdigits.
  { intros n Hin. apply dec_digits in Hin. lia. }
  apply (app_cons_inv_head 95%N) in H; [|done..].
  apply dec_inj in H. lia.
Qed.

(** After a loop that did not raise, the file of every range is there. *)
Lemma segments_loop_files M audio_file audio vad_segments :
  forall i results dir results' dir',
    segments_loop M audio_file audio i vad_segments results dir
      = (Ok results', dir') ->
    forall k segment, vad_segments !! k = Some segment ->
      exists name samples,
        segment_file_name M audio_file (i + k) segment = Ok name /\
        segment_audio audio segment = Ok samples /\
        dir' !! name = Some (AudioFile samples).
Proof.
  induction vad_segments as [|segment rest IH];
    intros i results dir results' dir' Hrun k seg Hk; [done|].
  rewrite segments_loop_step in Hrun.
  destruct (segment_file_name M audio_file i segment) as [name|] eqn:Hname;
    [|done].
  destruct (segment_audio audio segment) as [samples|] eqn:Hsamples; [|done].
  cbv zeta in Hrun.
  destruct (annotate_segment M (AudioFile samples)) as [appended|e]; [|done].
  destruct k as [|k]; simpl in Hk.
  - injection Hk as <-. rewrite Nat.add_0_r. exists name, samples.
    split; [done|]. split; [done|].
    destruct (segments_loop_writes _ _ _ _ _ _ _ _ _ Hrun name)
      as [->|(k' & seg' & smp' & _ & Hname' & _)].
    + apply lookup_insert_eq.
    + apply segment_file_name_Ok in Hname as (s & t & _ & Hn).
      apply segment_file_name_Ok in Hname' as (s' & t' & _ & Hn').
      rewrite Hn in Hn'. apply segment_name_index in Hn'. lia.
  - rewrite Nat.add_succ_r. by eapply (IH (S i)).
Qed.

(** ** The results folder across a run *)

Lemma build_results_writes M audio_file src dir name :
  (build_results M audio_file src dir).2 !! name = dir !! name \/
  exists k segment samples,
    get_speech_ts M (read_audio M src) !! k = Some segment /\
    segment_file_name M audio_file k segment = Ok name /\
    segment_audio (read_audio M src) segment = Ok samples /\
    (build_results M audio_file src dir).2 !! name = Some (AudioFile samples).
Proof.
  rewrite build_results_unfold.
  destruct (best_label (emotion_pipeline M src)) as [label|e]; [|by left].
  destruct (segments_loop M audio_file (read_audio M src) 0
              (get_speech_ts M (read_audio M src))
              [[(lit "Overall Emotion", label)]] dir) as [o dir'] eqn:Hrun.
  apply (segments_loop_writes _ _ _ _ _ _ _ _ _ Hrun).
Qed.

Lemma segment_file_name_wav M audio_file i segment name :
  segment_file_name M audio_file i segment = Ok name ->
  endswith dot_wav name = true.
Proof.
  intros (s & t & _ & ->)%segment_file_name_Ok. apply segment_name_wav.
Qed.

Lemma build_results_keeps M audio_file src dir name :
  endswith dot_wav name = false ->
  (build_results M audio_file src dir).2 !! name = dir !! name.
Proof.
  intros Hname.
  destruct (build_results_writes M audio_file src dir name)
    as [H|(k & segment & samples & _ & Hn & _)]; [done|].
  apply segment_file_name_wav in Hn. congruence.
Qed.

Lemma build_results_outcome M audio_file src dir dir2 :
  (build_results M audio_file src dir).1 = (build_results M audio_file src dir2).1.
Proof.
  rewrite !build_results_unfold.
  destruct (best_label (emotion_pipeline M src)); [|done].
  apply segments_loop_outcome.
Qed.

(** X2.  Building the result list writes segment files and nothing else:
    after lines 52-104, whether they raised or not, every file of the
    results folder is as it was before or is the file of one of the
    detected ranges, holding that range's samples.  Files not named
    [*.wav], the earlier artifact among them, are untouched.  What the
    folder held does not influence the list that is built. *)
Theorem build_results_writes_only_segments (M : collaborators)
    (audio_file : str) (src : file) (dir : gmap str file) :
  let run := build_results M audio_file src dir in
  let audio := read_audio M src in
  (forall name,
     run.2 !! name = dir !! name \/
     exists k segment samples,
       get_speech_ts M audio !! k = Some segment /\
       segment_file_name M audio_file k segment = Ok name /\
       segment_audio audio segment = Ok samples /\
       run.2 !! name = Some (AudioFile samples)) /\
  (forall name, endswith dot_wav name = false -> run.2 !! name = dir !! name) /\
  run.2 !! output_results_json = dir !! output_results_json /\
  (forall dir2, (build_results M audio_file src dir2).1 = run.1).
Proof.
  intros run audio. split; [|split; [|split]].
  - apply build_results_writes.
  - apply build_results_keeps.
  - apply build_results_keeps, output_results_json_not_wav.
  - intros dir2. apply build_results_outcome.
Qed.

(** Whether the write succeeds does not depend on what the folder held. *)
Lemma write_results_outcome st results dir dir2 :
  (write_results st results dir).1 = (write_results st results dir2).1.
Proof.
  unfold write_results. cbv zeta. destruct st as [|k|]; [done| |done].
  by destruct (_ <=? k).
Qed.

(** A run completes exactly when the list is built and the write of its
    text succeeds. *)
Lemma process_audio_file_Ok M st audio_file src dir v dir' :
  process_audio_file M st audio_file src dir = (Ok v, dir') ->
  exists results dir1,
    build_results M audio_file src dir = (Ok results, dir1) /\
    (write_results st results dir1).1 = Ok () /\
    v = PyNone /\
    dir' = cleanup (<[output_results_json := TextFile (json_dump results)]> dir1).
Proof.
  rewrite process_audio_file_unfold.
  destruct (build_results M audio_file src dir) as [[results|e] dir1]; [|done].
  destruct (write_results st results dir1) as [[[]|e] dir2] eqn:Hw; [|done].
  intros [= <- <-]. exists results, dir1. split; [done|].
  split; [by rewrite Hw|].
  split; [done|]. by apply write_results_Ok in Hw as [_ ->].
Qed.

Lemma process_audio_file_run M st audio_file src dir results dir1 :
  build_results M audio_file src dir = (Ok results, dir1) ->
  (write_results st results dir1).1 = Ok () ->
  process_audio_file M st audio_file src dir
    = (Ok PyNone,
       cleanup (<[output_results_json := TextFile (json_dump results)]> dir1)).
Proof.
  intros Hbuild Hfits. rewrite process_audio_file_unfold, Hbuild.
  destruct (write_results st results dir1) as [[[]|e] dir2] eqn:Hw; [|done].
  by apply write_results_Ok in Hw as [_ ->].
Qed.

(** The folder after a run that completed. *)
Lemma completed_run_lookup M audio_file src dir results dir1 name :
  build_results M audio_file src dir = (Ok results, dir1) ->
  cleanup (<[output_results_json := TextFile (json_dump results)]> dir1) !! name =
    if endswith dot_wav name then None
    else if bool_decide (name = output_results_json)
         then Some (TextFile (json_dump results))
         else dir !! name.
Proof.
  intros Hbuild. rewrite cleanup_lookup.
  destruct (endswith dot_wav name) eqn:Hname; [done|].
  case_bool_decide as Hout.
  - subst name. apply lookup_insert_eq.
  - rewrite lookup_insert_ne by done.
    pose proof (build_results_keeps M audio_file src dir name Hname) as Hkeep.
    by rewrite Hbuild in Hkeep.
Qed.

(** X3.  After a run that completes, the results folder holds no [*.wav]
    file at all (also none left by an earlier run), the artifact with the
    serialisation of the new result list in place of whatever it held, and
    every other file as before.  Running the pipeline again on the same
    upload from that folder completes as well and leaves the folder as it
    is. *)
Theorem completed_run_folder (M : collaborators) (st : storage)
    (audio_file : str) (src : file) (dir : gmap str file) (v : pyval)
    (dir' : gmap str file) :
  process_audio_file M st audio_file src dir = (Ok v, dir') ->
  (exists results dir1,
     build_results M audio_file src dir = (Ok results, dir1) /\
     forall name,
       dir' !! name =
         if endswith dot_wav name then None
         else if bool_decide (name = output_results_json)
              then Some (TextFile (json_dump results))
              else dir !! name) /\
  process_audio_file M st audio_file src dir' = (Ok v, dir').
Proof.
  intros Hrun.
  apply process_audio_file_Ok in Hrun as (results & dir1 & Hbuild & Hfits & -> & ->).
  split.
  - exists results, dir1. split; [done|]. intros name.
    by apply (completed_run_lookup M audio_file src).
  - set (dir' := cleanup _).
    destruct (build_results M audio_file src dir') as [o dir2] eqn:Hbuild2.
    assert (o = Ok results) as ->.
    { pose proof (build_results_outcome M audio_file src dir' dir) as Ho.
      by rewrite Hbuild, Hbuild2 in Ho. }
    rewrite (write_results_outcome st results dir1 dir2) in Hfits.
    rewrite (process_audio_file_run _ _ _ _ _ _ _ Hbuild2 Hfits). f_equal.
    apply map_eq. intros name.
    rewrite (completed_run_lookup _ _ _ _ _ _ name Hbuild2).
    unfold dir'. rewrite (completed_run_lookup _ _ _ _ _ _ name Hbuild).
    destruct (endswith dot_wav name); [done|]. by case_bool_decide.
Qed.

Lemma completed_run_folder_witness :
  process_audio_file demo TakesAll demo_path demo_src demo_folder
    = (Ok PyNone, {[ output_results_json := TextFile (json_dump demo_results) ]}) /\
  process_audio_file demo TakesAll demo_path demo_src
      {[ output_results_json := TextFile (json_dump demo_results) ]}
    = (Ok PyNone, {[ output_results_json := TextFile (json_dump demo_results) ]}).
Proof.
  assert (process_audio_file demo TakesAll demo_path demo_src demo_folder
    = (Ok PyNone, {[ output_results_json := TextFile (json_dump demo_results) ]}))
    as H by (vm_compute; reflexivity).
  split; [exact H|].
  exact (proj2 (completed_run_folder demo TakesAll demo_path demo_src demo_folder
                  PyNone _ H)).
Defined.

(** X4.  When building the result list raises, the run ends there with the
    same exception: nothing is written to the artifact, which stays as the
    earlier run left it, and no clean-up is done.  Either the emotion call
    on the whole file raised, and the folder is untouched, or one detected
    range raised after all earlier ranges went through: its samples could
    not be cut, or its annotation raised and the file of that range is left
    in the folder. *)
Theorem build_failure_aborts (M : collaborators) (st : storage)
    (audio_file : str) (src : file) (dir : gmap str file) (e : exn)
    (dir1 : gmap str file) :
  build_results M audio_file src dir = (Raise e, dir1) ->
  let audio := read_audio M src in
  process_audio_file M st audio_file src dir = (Raise e, dir1) /\
  dir1 !! output_results_json = dir !! output_results_json /\
  ((best_label (emotion_pipeline M src) = Raise e /\ dir1 = dir) \/
   exists k segment,
     get_speech_ts M audio !! k = Some segment /\
     segment_annotation M audio segment = Raise e /\
     (forall j earlier, j < k -> get_speech_ts M audio !! j = Some earlier ->
        exists o, segment_annotation M audio earlier = Ok o) /\
     (segment_audio audio segment = Raise e \/
      exists name samples,
        segment_file_name M audio_file k segment = Ok name /\
        segment_audio audio segment = Ok samples /\
        annotate_segment M (AudioFile samples) = Raise e /\
        dir1 !! name = Some (AudioFile samples))).
Proof.
  intros Hbuild audio. split; [|split].
  - by rewrite process_audio_file_unfold, Hbuild.
  - pose proof (build_results_keeps M audio_file src dir output_results_json
                  output_results_json_not_wav) as H.
    by rewrite Hbuild in H.
  - rewrite build_results_unfold in Hbuild.
    destruct (best_label (emotion_pipeline M src)) as [label|e0].
    + right. apply segments_loop_Raise in Hbuild. exact Hbuild.
    + left. by injection Hbuild as -> ->.
Qed.

Lemma build_failure_aborts_witness :
  build_results demo_faulty demo_path demo_src demo_folder
    = (Raise ValueError,
       (build_results demo_faulty demo_path demo_src demo_folder).2) /\
  process_audio_file demo_faulty TakesAll demo_path demo_src demo_folder
    = (Raise ValueError,
       (build_results demo_faulty demo_path demo_src demo_folder).2).
Proof.
  assert (build_results demo_faulty demo_path demo_src demo_folder
    = (Raise ValueError,
       (build_results demo_faulty demo_path demo_src demo_folder).2)) as H
    by (vm_compute; reflexivity).
  split; [exact H|].
  exact (proj1 (build_failure_aborts demo_faulty TakesAll demo_path demo_src
                  demo_folder ValueError _ H)).
Defined.

(** X5.  The files of the detected ranges never overwrite one another: the
    names written at two different positions of the detector's list
    differ, whatever the ranges are.  Once the list is built, the folder
    holds the file of every range with that range's samples, and a run
    whose artifact write then fails, in whatever way, leaves all of them
    behind. *)
Theorem segment_files_kept_apart (M : collaborators) (audio_file : str)
    (src : file) :
  let audio := read_audio M src in
  (forall i j segment segment' name,
     segment_file_name M audio_file i segment = Ok name ->
     segment_file_name M audio_file j segment' = Ok name -> i = j) /\
  (forall dir results dir1,
     build_results M audio_file src dir = (Ok results, dir1) ->
     forall k segment, get_speech_ts M audio !! k = Some segment ->
       exists name samples,
         segment_file_name M audio_file k segment = Ok name /\
         segment_audio audio segment = Ok samples /\
         dir1 !! name = Some (AudioFile samples)) /\
  (forall dir results dir1 st e dir',
     build_results M audio_file src dir = (Ok results, dir1) ->
     process_audio_file M st audio_file src dir = (Raise e, dir') ->
     forall k segment, get_speech_ts M audio !! k = Some segment ->
       exists name samples,
         segment_file_name M audio_file k segment = Ok name /\
         segment_audio audio segment = Ok samples /\
         dir' !! name = Some (AudioFile samples)).
Proof.
  intros audio.
  assert (forall dir results dir1,
     build_results M audio_file src dir = (Ok results, dir1) ->
     forall k segment, get_speech_ts M audio !! k = Some segment ->
       exists name samples,
         segment_file_name M audio_file k segment = Ok name /\
         segment_audio audio segment = Ok samples /\
         dir1 !! name = Some (AudioFile samples)) as Hfiles.
  { intros dir results dir1 Hbuild k segment Hk.
    rewrite build_results_unfold in Hbuild.
    destruct (best_label (emotion_pipeline M src)) as [label|]; [|done].
    apply (segments_loop_files _ _ _ _ _ _ _ _ _ Hbuild k segment Hk). }
  split; [|split].
  - intros i j segment segment' name Hi Hj.
    apply segment_file_name_Ok in Hi as (s & t & _ & Hn).
    apply segment_file_name_Ok in Hj as (s' & t' & _ & Hn').
    rewrite Hn in Hn'. by apply segment_name_index in Hn'.
  - exact Hfiles.
  - intros dir results dir1 st e dir' Hbuild Hrun k segment Hk.
    destruct (Hfiles _ _ _ Hbuild k segment Hk)
      as (name & samples & Hname & Hsamples & Hfile).
    exists name, samples. split; [done|]. split; [done|].
    rewrite process_audio_file_unfold, Hbuild in Hrun.
    destruct (write_results st results dir1) as [[[]|e0] dir2] eqn:Hw; [done|].
    injection Hrun as <- <-.
    apply write_results_Raise in Hw
      as [_ [[_ ->]|[_ (written & rest & _ & _ & ->)]]]; [done|].
    rewrite lookup_insert_ne; [done|].
    intros Heq. apply segment_file_name_wav in Hname.
    by rewrite <- Heq, output_results_json_not_wav in Hname.
Qed.

(** ** What the tag parser lets through *)

Lemma contains_infix (sub a x b : str) :
  contains sub x = true -> contains sub (a ++ x ++ b) = true.
Proof.
  rewrite !contains_spec. intros (u & v & ->).
  exists (a ++ u), (v ++ b). by rewrite <- !app_assoc.
Qed.

Lemma py_lstrip_suffix (s : str) : exists k, s = k ++ py_lstrip s.
Proof.
  induction s as [|c s [k IH]]; simpl.
  - by exists [].
  - destruct (is_space c); [|by exists []].
    exists (c :: k). simpl. by rewrite <- IH.
Qed.

Lemma py_lstrip_head (s : str) (c : N) :
  head (py_lstrip s) = Some c -> is_space c = false.
Proof.
  induction s as [|c0 s IH]; simpl; [done|].
  destruct (is_space c0) eqn:E; [done|]. simpl. by intros [= <-].
Qed.

Lemma head_rev (l : str) : head (rev l) = last l.
Proof. rewrite rev_alt. apply head_reverse. Qed.

Lemma last_rev (l : str) : last (rev l) = head l.
Proof. rewrite rev_alt. apply last_reverse. Qed.

(** [strip] returns a stretch of its argument. *)
Lemma py_strip_infix (s : str) : exists a b, s = a ++ py_strip s ++ b.
Proof.
  unfold py_strip.
  destruct (py_lstrip_suffix s) as [k Hk].
  destruct (py_lstrip_suffix (rev (py_lstrip s))) as [k2 Hk2].
  exists k, (rev k2). rewrite <- rev_app_distr, <- Hk2, rev_involutive. done.
Qed.

Lemma py_strip_stripped (s : str) : stripped (py_strip s).
Proof.
  unfold stripped, py_strip. split; intros c.
  - rewrite head_rev.
    destruct (py_lstrip_suffix (rev (py_lstrip s))) as [k Hk].
    intros Hlast. apply (py_lstrip_head s).
    rewrite <- last_rev, Hk. rewrite last_app, Hlast. done.
  - rewrite last_rev. apply py_lstrip_head.
Qed.

(** Every extracted field is free of both markers and stripped. *)
Lemma extracted_info_clean (text_content field : str) :
  field ∈ extracted_info text_content ->
  contains opening field = false /\ contains closing field = false /\
  stripped field.
Proof.
  rewrite extracted_info_map. intros Hin.
  apply list_elem_of_fmap in Hin as (part & -> & Hpart).
  apply list_elem_of_In, filter_In in Hpart as [Hpart Hclosing].
  destruct (py_split_join opening text_content) as [_ Hparts]; [done|].
  rewrite Forall_forall in Hparts.
  assert (contains opening part = false) as Hopen
    by (by apply Hparts, list_elem_of_In).
  destruct (py_split_head closing part) as (pre & rest & Hfirst & ->);
    [done|done|].
  assert (contains closing pre = false) as Hpre
    by (by eapply first_occurrence_clean).
  destruct Hfirst as [Hcut _].
  destruct (py_strip_infix pre) as (a & b & Hstrip).
  split; [|split].
  - destruct (contains opening (py_strip pre)) eqn:E; [|done].
    apply (contains_infix _ a _ (b ++ closing ++ rest)) in E.
    rewrite !app_assoc, <- (app_assoc a), <- Hstrip in E.
    rewrite <- app_assoc in E. by rewrite <- Hcut, Hopen in E.
  - destruct (contains closing (py_strip pre)) eqn:E; [|done].
    apply (contains_infix _ a _ b) in E. by rewrite <- Hstrip, Hpre in E.
  - apply py_strip_stripped.
Qed.

(** X6.  The values of an emitted record are clean: the language and the
    audio type contain neither ['<|'] nor ['|>'], the text contains no
    ['|>'], and none of the three begins or ends with white space. *)
Theorem tag_record_values_clean (text_content best_emotion : str)
    (record : dict) :
  tag_record text_content best_emotion = Some record ->
  exists language audio_type text,
    record = [ (lit "Language", language);
               (lit "Emotion", best_emotion);
               (lit "Audio Type", audio_type);
               (lit "Text", text) ] /\
    (contains opening language = false /\ contains closing language = false) /\
    (contains opening audio_type = false /\ contains closing audio_type = false) /\
    contains closing text = false /\
    stripped language /\ stripped audio_type /\ stripped text.
Proof.
  unfold tag_record.
  destruct (Nat.leb_spec 4 (length (extracted_info text_content))) as [Hlen|];
    [|done].
  intros [= <-].
  destruct (lookup_lt_is_Some_2 (extracted_info text_content) 0) as [f0 Hf0];
    [lia|].
  destruct (lookup_lt_is_Some_2 (extracted_info text_content) 2) as [f2 Hf2];
    [lia|].
  rewrite (nth_lookup_default _ _ _ Hf0), (nth_lookup_default _ _ _ Hf2).
  apply list_elem_of_lookup_2, extracted_info_clean in Hf0 as (? & ? & ?).
  apply list_elem_of_lookup_2, extracted_info_clean in Hf2 as (? & ? & ?).
  eexists _, _, _. split; [reflexivity|].
  split; [done|]. split; [done|]. split; [|split; [done|split; [done|]]].
  - destruct (py_split_last closing text_content) as [Hclean _]; [done|].
    destruct (py_strip_infix (List.last (py_split closing text_content) []))
      as (a & b & Hstrip).
    destruct (contains closing (py_strip _)) eqn:E; [|done].
    apply (contains_infix _ a _ b) in E. by rewrite <- Hstrip, Hclean in E.
  - apply py_strip_stripped.
Qed.

Lemma tag_record_values_clean_witness :
  exists language audio_type text,
    contains closing text = false /\ stripped language /\
    tag_record (lit "<|EN|><|SAD|><|Speech|><|withitn|> hello ") (lit "happy")
      = Some [ (lit "Language", language);
               (lit "Emotion", lit "happy");
               (lit "Audio Type", audio_type);
               (lit "Text", text) ].
Proof.
  destruct (tag_record_values_clean
              (lit "<|EN|><|SAD|><|Speech|><|withitn|> hello ") (lit "happy")
              [ (lit "Language", lit "EN");
                (lit "Emotion", lit "happy");
                (lit "Audio Type", lit "Speech");
                (lit "Text", lit "hello") ])
    as (language & audio_type & text & Hrec & _ & _ & Htext & Hlang & _).
  { vm_compute. reflexivity. }
  exists language, audio_type, text. split; [done|]. split; [done|].
  rewrite <- Hrec. vm_compute. reflexivity.
Defined.

(** A transcript without a closing marker has no field. *)
Lemma extracted_info_untagged (text_content : str) :
  contains closing text_content = false -> extracted_info text_content = [].
Proof.
  intros Hno. rewrite extracted_info_map.
  destruct (List.filter (contains closing) (py_split opening text_content))
    as [|part tagged] eqn:E; [done|].
  assert (In part (List.filter (contains closing)
                     (py_split opening text_content))) as Hpart
    by (rewrite E; by left).
  apply filter_In in Hpart as [Hpart Hclosing].
  destruct (py_split_join opening text_content) as [Hjoin _]; [done|].
  apply list_elem_of_In in Hpart.
  pose proof (contains_join opening closing _ _ Hpart Hclosing) as Hin.
  by rewrite Hjoin, Hno in Hin.
Qed.

(** X7.  A recogniser entry without a ["text"] key, with an empty text, or
    with a text in which ['|>'] does not occur never yields a record.  The
    emotion pipeline is run on the segment all the same, and if it raises,
    the exception is not held back. *)
Theorem untagged_transcript_dropped (M : collaborators) (f : file)
    (result : option str) (items : list (option str)) :
  asr_pipeline M f = AsrList (result :: items) ->
  contains closing (default [] result) = false ->
  (forall best_emotion, tag_record (default [] result) best_emotion = None) /\
  annotate_segment M f =
    match best_label (emotion_pipeline M f) with
    | Ok _ => Ok None
    | Raise e => Raise e
    end.
Proof.
  intros Hasr Hno.
  assert (forall e, tag_record (default [] result) e = None) as Htag.
  { intros e. unfold tag_record. by rewrite extracted_info_untagged. }
  split; [exact Htag|].
  unfold annotate_segment. rewrite Hasr.
  destruct (best_label (emotion_pipeline M f)); simpl; [|done].
  by rewrite Htag.
Qed.

Lemma untagged_transcript_dropped_witness :
  annotate_segment demo_untagged (AudioFile [1; 2]%Q) = Ok None.
Proof.
  exact (proj2 (untagged_transcript_dropped demo_untagged (AudioFile [1; 2]%Q)
                  None [] eq_refl eq_refl)).
Defined.

(** ** Segments of detected ranges *)

Lemma py_slice_nonneg {A} (l : list A) (start stop : Z) :
  (0 <= start)%Z -> (0 <= stop)%Z ->
  py_slice l start stop =
    take (Z.to_nat (Z.min stop (Z.of_nat (length l)))
          - Z.to_nat (Z.min start (Z.of_nat (length l))))
         (drop (Z.to_nat (Z.min start (Z.of_nat (length l)))) l).
Proof.
  intros H0 H1. unfold py_slice. rewrite !slice_index_nonneg by done.
  f_equal. lia.
Qed.


Lemma py_slice_length {A} (l : list A) (start stop : Z) :
  length (py_slice l start stop) <= length l.
Proof. unfold py_slice. rewrite length_take, length_drop. lia. Qed.

(** The segment of a range is the slice between the two sample indices the
    extractor computes for the range. *)
Lemma segment_audio_cut (audio : list Q) (segment : vad_segment)
    (samples : list Q) :
  segment_audio audio segment = Ok samples <->
  exists start_sample end_sample,
    cut_index (seg_start segment) = Ok start_sample /\
    cut_index (seg_end segment) = Ok end_sample /\
    samples = py_slice audio start_sample end_sample.
Proof.
  unfold segment_audio, segment_times, extract_segment, cut_index.
  destruct (int_truediv (seg_start segment) 16000) as [s|e]; simpl.
  - destruct (int_truediv (seg_end segment) 16000) as [t|e]; simpl.
    + destruct (sample_index s 16000) as [ss|e]; simpl.
      * destruct (sample_index t 16000) as [tt|e]; simpl.
        -- split; [intros [= <-]; by exists ss, tt|].
           by intros (? & ? & [= <-] & [= <-] & ->).
        -- split; [done|]. by intros (? & ? & _ & [=] & _).
      * split; [done|]. by intros (? & ? & [=] & _).
    + split; [done|]. by intros (? & ? & _ & [=] & _).
  - split; [done|]. by intros (? & ? & [=] & _).
Qed.



(** X9.  The segment of a detected range never has more samples than the
    recording.  With [s] and [e] the sample indices the extractor computes
    for the range, both not negative, it has as many samples as lie between
    the two once each is cut to the length of the recording: none when [e]
    does not lie after [s], and [e - s] when [s <= e] lies within the
    recording. *)
Theorem segment_audio_length (audio : list Q) (segment : vad_segment)
    (samples : list Q) :
  segment_audio audio segment = Ok samples ->
  let len := Z.of_nat (length audio) in
  length samples <= length audio /\
  exists start_sample end_sample,
    cut_index (seg_start segment) = Ok start_sample /\
    cut_index (seg_end segment) = Ok end_sample /\
    ((0 <= start_sample)%Z -> (0 <= end_sample)%Z ->
     Z.of_nat (length samples)
       = Z.max 0 (Z.min end_sample len - Z.min start_sample len)) /\
    ((0 <= end_sample)%Z -> (end_sample <= start_sample)%Z -> samples = []) /\
    ((0 <= start_sample)%Z -> (start_sample <= end_sample)%Z ->
     (end_sample <= len)%Z ->
     Z.of_nat (length samples) = (end_sample - start_sample)%Z).
Proof.
  intros (s & e & Hs & He & ->)%segment_audio_cut len.
  split; [apply py_slice_length|].
  exists s, e. split; [done|]. split; [done|].
  split; [|split].
  - intros H0 H1. rewrite py_slice_nonneg by done. fold len.
    rewrite length_take, length_drop. lia.
  - intros H0 H1. apply length_zero_iff_nil.
    rewrite py_slice_nonneg by lia. fold len.
    rewrite length_take, length_drop. lia.
  - intros H0 H1 H2. rewrite py_slice_nonneg by lia. fold len.
    rewrite length_take, length_drop. lia.
Qed.

Lemma segment_audio_length_witness :
  segment_audio [0; 1; 2; 3; 4; 5]%Q {| seg_start := 4; seg_end := 9 |}
    = Ok [4; 5]%Q /\
  length [4; 5]%Q <= length [0; 1; 2; 3; 4; 5]%Q.
Proof.
  assert (segment_audio [0; 1; 2; 3; 4; 5]%Q {| seg_start := 4; seg_end := 9 |}
          = Ok [4; 5]%Q) as H by (vm_compute; reflexivity).
  split; [exact H|].
  exact (proj1 (segment_audio_length [0; 1; 2; 3; 4; 5]%Q
                  {| seg_start := 4; seg_end := 9 |} [4; 5]%Q H)).
Defined.

(** For the sample indices below 2000 the extractor comes back to the
    index of the detector or to the one before it. *)
Example cut_index_below_2000 :
  forallb (fun n => match cut_index n with
                    | Ok m => (m =? n)%Z || (m =? n - 1)%Z
                    | Raise _ => false
                    end)
          (Z.of_nat <$> seq 0 2000) = true.
Proof. vm_compute. reflexivity. Qed.

Lemma upto_not_elem (c : N) (s : str) : c ∉ upto c s.
Proof.
  induction s as [|x s IH]; simpl.
  - apply not_elem_of_nil.
  - destruct (N.eqb_spec x c) as [->|Hne]; [apply not_elem_of_nil|].
    apply not_elem_of_cons. split; [congruence|done].
Qed.

Lemma elem_of_rev (c : N) (s : str) : c ∈ rev s <-> c ∈ s.
Proof. rewrite rev_alt. apply elem_of_reverse. Qed.

Lemma basename_no_slash (p : str) : 47%N ∉ basename p.
Proof. unfold basename. rewrite elem_of_rev. apply upto_not_elem. Qed.

Lemma splitext_root_subseteq (b : str) (c : N) : c ∈ splitext_root b -> c ∈ b.
Proof.
  unfold splitext_root. destruct (Nat.ltb _ _); [|done].
  destruct (forallb _ _); [done|]. apply subseteq_take.
Qed.

Lemma not_elem_of_check (c : N) (s : str) :
  forallb (fun x => negb (x =? c)%N) s = true -> c ∉ s.
Proof.
  induction s as [|x s IH]; simpl.
  - intros _. apply not_elem_of_nil.
  - intros [Hx Hs]%andb_true_iff. apply not_elem_of_cons. split; [|by apply IH].
    intros ->. by rewrite N.eqb_refl in Hx.
Qed.

(** X11.  The name of a segment file has no ['/'] in it as long as the
    formatted times have none: whatever directories the path of the upload
    goes through, the segment files are written into the results folder
    itself, where the listing of the clean-up finds them. *)
Theorem segment_name_plain (M : collaborators) (audio_file : str) (i : nat)
    (start_time end_time : float) :
  (forall x, 47%N ∉ format_2f M x) ->
  (47%N ∉ segment_name M audio_file i start_time end_time) /\
  (47%N ∉ splitext_root (basename audio_file)).
Proof.
  intros Hfmt.
  assert (47%N ∉ splitext_root (basename audio_file)) as Hstem.
  { intros Hin. apply splitext_root_subseteq in Hin.
    by apply basename_no_slash in Hin. }
  split; [|done]. unfold segment_name.
  rewrite !not_elem_of_app. repeat split; try done.
  - by apply not_elem_of_check.
  - intros Hin. apply dec_digits in Hin. lia.
  - by apply not_elem_of_check.
  - by apply not_elem_of_check.
  - by apply not_elem_of_check.
Qed.

Lemma segment_name_plain_witness :
  47%N ∉ segment_name demo (lit "/srv/in.coming/talk.v2.mp3") 0
           (ratio 1 16000) (ratio (-2) 1).
Proof.
  apply (segment_name_plain demo (lit "/srv/in.coming/talk.v2.mp3") 0
           (ratio 1 16000) (ratio (-2) 1)).
  assert (forall n, 47%N ∉ dec n) as Hdec.
  { intros n Hin. apply dec_digits in Hin. lia. }
  assert (forall s : bool, 47%N ∉ (if s then lit "-" else [])) as Hsign.
  { intros [|]; by apply not_elem_of_check. }
  intros x. simpl. unfold demo_format_2f.
  destruct x as [s|s| |s m e]; cbv zeta.
  - rewrite !not_elem_of_app. repeat split; try done.
    by apply not_elem_of_check.
  - destruct s; by apply not_elem_of_check.
  - by apply not_elem_of_check.
  - rewrite !not_elem_of_app. repeat split; try done.
    by apply not_elem_of_check.
Defined.

(** ** The handler *)

(** X10.  [recognize_file] answers 400 when the filename is missing or
    empty and 404 when nothing is found at the joined path, in both cases
    without touching the results folder.  When a file is found the pipeline
    runs on it: an exception of the pipeline passes through the handler,
    and the answer is 200 only after a run that completed, with the
    serialised result list in the artifact.  The upload folder is put in
    front of a relative filename only; an absolute filename is looked up
    and processed as it stands. *)
Theorem recognize_file_responses (M : collaborators) (st : storage)
    (uploads : str -> option file) (filename : option str)
    (dir : gmap str file) :
  let run := recognize_file M st uploads filename dir in
  (filename = None \/ filename = Some [] ->
   run = (Ok {| body := [(lit "error", lit "Filename not provided")];
                status := 400 |}, dir)) /\
  (forall fn, filename = Some fn -> fn <> [] ->
     uploads (os_path_join UPLOAD_FOLDER fn) = None ->
     run = (Ok {| body := [(lit "error", lit "File not found")];
                  status := 404 |}, dir)) /\
  (forall fn src, filename = Some fn -> fn <> [] ->
     uploads (os_path_join UPLOAD_FOLDER fn) = Some src ->
     let filepath := os_path_join UPLOAD_FOLDER fn in
     (forall e dir',
        process_audio_file M st filepath src dir = (Raise e, dir') ->
        run = (Raise e, dir')) /\
     (forall v dir',
        process_audio_file M st filepath src dir = (Ok v, dir') ->
        run = (Ok {| body := [(lit "message", lit "Recognition completed")];
                     status := 200 |}, dir') /\
        exists results,
          (build_results M filepath src dir).1 = Ok results /\
          dir' !! output_results_json = Some (TextFile (json_dump results)))) /\
  (forall r dir', run = (Ok r, dir') -> status r = 200 \/ dir' = dir) /\
  (forall rest, os_path_join UPLOAD_FOLDER (47%N :: rest) = 47%N :: rest) /\
  (forall c rest, c <> 47%N ->
     os_path_join UPLOAD_FOLDER (c :: rest) = lit "./uploads/" ++ c :: rest).
Proof.
  intros run. unfold run, recognize_file. clear run.
  split; [|split; [|split; [|split; [|split]]]].
  - by intros [-> | ->].
  - intros fn Hfile Hfn Hnone. subst filename.
    case_bool_decide; [done|]. simpl. by rewrite Hnone.
  - intros fn src Hfile Hfn Hsome. subst filename.
    case_bool_decide; [done|]. simpl. rewrite Hsome.
    unfold io_bind, io_ret. split.
    + intros e dir' ->. done.
    + intros v dir' Hrun. rewrite Hrun. split; [done|].
      apply process_audio_file_Ok in Hrun as (results & dir1 & Hbuild & _ & _ & ->).
      exists results. rewrite Hbuild. split; [done|].
      rewrite (completed_run_lookup _ _ _ _ _ _ _ Hbuild).
      rewrite output_results_json_not_wav. by rewrite bool_decide_eq_true_2.
  - intros r dir'. destruct filename as [fn|]; simpl.
    + case_bool_decide; [intros [= <- <-]; by right|].
      destruct (uploads _) as [src|]; [|intros [= <- <-]; by right].
      unfold io_bind, io_ret.
      destruct (process_audio_file _ _ _ _ _) as [[v|e] d]; [|done].
      intros [= <- <-]. by left.
    + intros [= <- <-]. by right.
  - intros rest. reflexivity.
  - intros c rest Hc. unfold os_path_join.
    change (startswith (lit "/") (c :: rest)) with ((47 =? c)%N && true).
    destruct (N.eqb_spec 47 c) as [<-|_]; [done|]. reflexivity.
Qed.

(** ** The text of the artifact *)

Lemma hex_digit_inj (n m : N) :
  (n < 16)%N -> (m < 16)%N -> hex_digit n = hex_digit m -> n = m.
Proof.
  unfold hex_digit. intros Hn Hm.
  destruct (N.ltb_spec n 10), (N.ltb_spec m 10); lia.
Qed.

(** The escapes form a prefix code. *)
Lemma json_escape_char_inj (c c' : N) (r r' : str) :
  json_escape_char c ++ r = json_escape_char c' ++ r' -> c = c' /\ r = r'.
Proof.
  unfold json_escape_char. intros H.
  repeat match type of H with
         | context [N.eqb ?a ?b] => destruct (N.eqb_spec a b)
         | context [N.ltb ?a ?b] => destruct (N.ltb_spec a b)
         end;
    simpl in H; simplify_eq; try done; try lia.
  pose proof (N.div_mod c 16 ltac:(done)) as Ec.
  pose proof (N.div_mod c' 16 ltac:(done)) as Ec'.
  pose proof (N.mod_lt c 16 ltac:(done)) as Hc.
  pose proof (N.mod_lt c' 16 ltac:(done)) as Hc'.
  assert (c / 16 < 16)%N as Hd by (apply N.Div0.div_lt_upper_bound; lia).
  assert (c' / 16 < 16)%N as Hd' by (apply N.Div0.div_lt_upper_bound; lia).
  apply hex_digit_inj in H; [|done..].
  apply hex_digit_inj in H2; [|done..].
  split; [|done]. rewrite Ec, Ec', H, H2. done.
Qed.

Lemma json_escape_char_head (c : N) :
  exists x t, json_escape_char c = x :: t /\ x <> 34%N.
Proof.
  unfold json_escape_char.
  repeat match goal with
         | |- context [N.eqb ?a ?b] => destruct (N.eqb_spec a b)
         | |- context [N.ltb ?a ?b] => destruct (N.ltb_spec a b)
         end; eexists _, _; (split; [reflexivity|lia]).
Qed.

(** An escaped text is closed by the first quote after it. *)
Lemma json_body_inj (s s' r r' : str) :
  flat_map json_escape_char s ++ 34%N :: r
    = flat_map json_escape_char s' ++ 34%N :: r' ->
  s = s' /\ r = r'.
Proof.
  revert s'. induction s as [|c s IH]; intros [|c' s'] H; simpl in H.
  - by injection H.
  - destruct (json_escape_char_head c') as (x & t & Hc & Hx).
    rewrite Hc in H. simpl in H. congruence.
  - destruct (json_escape_char_head c) as (x & t & Hc & Hx).
    rewrite Hc in H. simpl in H. congruence.
  - rewrite <- !app_assoc in H.
    apply json_escape_char_inj in H as [-> H].
    apply IH in H as [-> ->]. done.
Qed.

Lemma json_string_inj (s s' r r' : str) :
  json_string s ++ r = json_string s' ++ r' -> s = s' /\ r = r'.
Proof.
  unfold json_string. simpl. rewrite <- !app_assoc. simpl.
  intros [= H]. by apply json_body_inj.
Qed.

Lemma json_item_inj (kv kv' : str * str) (r r' : str) :
  json_item kv ++ r = json_item kv' ++ r' -> kv = kv' /\ r = r'.
Proof.
  destruct kv as [k v], kv' as [k' v']. unfold json_item. cbn [fst snd].
  rewrite <- !app_assoc. intros H.
  apply json_string_inj in H as [-> H]. apply app_inv_head in H.
  apply json_string_inj in H as [-> ->]. done.
Qed.

Lemma join_cons_cons (sep x y : str) (l : list str) :
  join sep (x :: y :: l) = x ++ sep ++ join sep (y :: l).
Proof. done. Qed.

(** Encodings that delimit themselves can be joined by a separator that
    starts with a comma and closed by a line feed without confusion. *)
Lemma join_inj {A} (enc : A -> str) (sep : str) :
  (forall x y r r', enc x ++ r = enc y ++ r' -> x = y /\ r = r') ->
  forall l l' r r', l <> [] -> l' <> [] ->
    join (44%N :: sep) (enc <$> l) ++ 10%N :: r
      = join (44%N :: sep) (enc <$> l') ++ 10%N :: r' ->
    l = l' /\ r = r'.
Proof.
  intros Henc. induction l as [|x l IH]; intros l' r r' Hl Hl' H; [done|].
  destruct l' as [|y l']; [done|].
  destruct l as [|x2 l], l' as [|y2 l'];
    rewrite ?fmap_cons, ?join_cons_cons, <- ?app_assoc in H.
  - cbn [fmap list_fmap join] in H. by apply Henc in H as [-> [= ->]].
  - cbn [fmap list_fmap join] in H. apply Henc in H as [_ H]. discriminate H.
  - cbn [fmap list_fmap join] in H. apply Henc in H as [_ H]. discriminate H.
  - apply Henc in H as [-> H]. apply app_inv_head in H.
    rewrite <- !fmap_cons in H.
    apply IH in H as [[= -> ->] ->]; done.
Qed.

Lemma json_dict_cons_app (kv : str * str) (d : dict) (r : str) :
  json_dict (kv :: d) ++ r =
    (123%N :: newline_indent 8)
    ++ join (44%N :: newline_indent 8) (json_item <$> kv :: d)
    ++ 10%N :: (replicate 4 32%N ++ 125%N :: r).
Proof.
  change (json_dict (kv :: d))
    with ((123%N :: newline_indent 8)
          ++ join (44%N :: newline_indent 8) (json_item <$> kv :: d)
          ++ 10%N :: (replicate 4 32%N ++ [125%N])).
  by rewrite <- !app_assoc.
Qed.

Lemma json_dump_cons (d : dict) (l : list dict) :
  json_dump (d :: l) =
    (91%N :: newline_indent 4)
    ++ join (44%N :: newline_indent 4) (json_dict <$> d :: l)
    ++ 10%N :: [93%N].
Proof. reflexivity. Qed.

Lemma json_dict_inj (d d' : dict) (r r' : str) :
  json_dict d ++ r = json_dict d' ++ r' -> d = d' /\ r = r'.
Proof.
  destruct d as [|kv d], d' as [|kv' d'].
  - intros H. apply (app_inv_head (lit "{}")) in H. by subst.
  - rewrite json_dict_cons_app. intros H. discriminate H.
  - rewrite json_dict_cons_app. intros H. discriminate H.
  - rewrite !json_dict_cons_app. intros H. apply app_inv_head in H.
    apply (join_inj json_item) in H as [Hd H]; [|apply json_item_inj|done..].
    split; [done|]. apply app_inv_head in H. by injection H.
Qed.

Lemma json_dump_inj (results results' : list dict) :
  json_dump results = json_dump results' -> results = results'.
Proof.
  destruct results as [|d l], results' as [|d' l'].
  - done.
  - rewrite json_dump_cons. intros H. discriminate H.
  - rewrite json_dump_cons. intros H. discriminate H.
  - rewrite !json_dump_cons. intros H. apply app_inv_head in H.
    by apply (join_inj json_dict) in H as [H _]; [|apply json_dict_inj|done..].
Qed.

(** X12.  The artifact determines the result list: two different lists of
    records are never written as the same text, whatever characters the
    labels and transcripts contain. *)
Theorem json_dump_distinct (results results' : list dict) :
  results <> results' -> json_dump results <> json_dump results'.
Proof. intros Hne H. by apply Hne, json_dump_inj. Qed.

(** A comma inside a value is not taken for the comma between records. *)
Lemma json_dump_distinct_witness :
  json_dump [[(lit "a", lit "b,c")]] <> json_dump [[(lit "a", lit "b")]; []].
Proof.
  apply (json_dump_distinct [[(lit "a", lit "b,c")]] [[(lit "a", lit "b")]; []]).
  intros H. discriminate H.
Defined.

